(** * Secure filesystem server: path guard, patch engine and search

    A shallow embedding of [src/filesystem/index.ts]: [validatePath],
    [applyFileEdits] and [searchFiles], with the JavaScript string
    primitives and the Node [path] functions they call.

    Conventions of the model.
    - A JavaScript string is a [string]; the character classes used by the
      code ([\s], [trim], [toLowerCase]) are modelled on the ASCII range.
    - A thrown [Error] is a [JsError] carrying its message; [try]/[catch]
      is [try_catch] on [result].
    - The file system is an explicit state [FileSystem]; only
      [fs.writeFile] changes it. *)

From Stdlib Require Import String Ascii List ZArith Lia Bool.
From stdpp Require Import base option list strings gmap.

Local Open Scope string_scope.

(** ** JavaScript string primitives *)

Module Js.

(** [s.startsWith(p)] *)
Definition startsWith (s p : string) : bool := String.prefix p s.

(** [s.slice(n)] for [0 <= n] *)
Fixpoint sliceFrom (n : nat) (s : string) : string :=
  match n, s with
  | O, _ => s
  | S n', String _ s' => sliceFrom n' s'
  | S _, EmptyString => EmptyString
  end.

(** [s.slice(0, n)] for [0 <= n] *)
Fixpoint sliceTo (n : nat) (s : string) : string :=
  match n, s with
  | O, _ => EmptyString
  | S n', String c s' => String c (sliceTo n' s')
  | S _, EmptyString => EmptyString
  end.

(** [s.indexOf(sub)], [None] standing for [-1] *)
Fixpoint indexOf (s sub : string) : option nat :=
  if startsWith s sub then Some 0
  else match s with
       | EmptyString => None
       | String _ s' => S <$> indexOf s' sub
       end.

(** [s.includes(sub)] *)
Definition includes (s sub : string) : bool :=
  match indexOf s sub with Some _ => true | None => false end.

(** The replacement-template expansion of [String.prototype.replace]
    (ECMAScript GetSubstitution) for a string pattern, which has no
    capture groups: [$$] is a dollar sign, [$&] the matched text,
    [$`] the text before the match, [$'] the text after it; every other
    character, a dollar sign before a digit included, stands for itself. *)
Fixpoint getSubstitution (matched before after template : string) : string :=
  match template with
  | EmptyString => EmptyString
  | String "$" (String "$" rest) =>
      String "$" (getSubstitution matched before after rest)
  | String "$" (String "&" rest) =>
      matched +:+ getSubstitution matched before after rest
  | String "$" (String "`" rest) =>
      before +:+ getSubstitution matched before after rest
  | String "$" (String "'" rest) =>
      after +:+ getSubstitution matched before after rest
  | String c rest => String c (getSubstitution matched before after rest)
  end.

(** [s.replace(searchValue, replaceValue)] with both arguments strings:
    only the first occurrence is replaced. *)
Definition replace (s searchValue replaceValue : string) : string :=
  match indexOf s searchValue with
  | None => s
  | Some pos =>
      let before := sliceTo pos s in
      let after := sliceFrom (pos + String.length searchValue) s in
      before +:+ getSubstitution searchValue before after replaceValue +:+ after
  end.

(** [s.split(sep)] for a one-character separator; never empty. *)
Fixpoint split (sep : ascii) (s : string) : list string :=
  match s with
  | EmptyString => [EmptyString]
  | String c s' =>
      if Ascii.eqb c sep then EmptyString :: split sep s'
      else match split sep s' with
           | l :: ls => String c l :: ls
           | [] => [String c EmptyString]
           end
  end.

(** [lines.join(sep)] *)
Fixpoint join (sep : string) (l : list string) : string :=
  match l with
  | [] => EmptyString
  | [x] => x
  | x :: rest => x +:+ sep +:+ join sep rest
  end.

(** White space and line terminators of the ASCII range: the characters
    [\s] and [trim] recognise there. *)
Definition isWhiteSpace (c : ascii) : bool :=
  let n := nat_of_ascii c in
  (((9 <=? n) && (n <=? 13)) || (n =? 32))%nat.

(** [s.trimStart()] *)
Fixpoint trimStart (s : string) : string :=
  match s with
  | EmptyString => EmptyString
  | String c s' => if isWhiteSpace c then trimStart s' else s
  end.

(** [s.trimEnd()] *)
Fixpoint trimEnd (s : string) : string :=
  match s with
  | EmptyString => EmptyString
  | String c s' =>
      match trimEnd s' with
      | EmptyString => if isWhiteSpace c then EmptyString else String c EmptyString
      | t => String c t
      end
  end.

(** [s.trim()] *)
Definition trim (s : string) : string := trimEnd (trimStart s).

(** [s.match(/^\s*/)?.[0] || ''] : the leading white space of [s]. *)
Fixpoint leadingWhitespace (s : string) : string :=
  match s with
  | EmptyString => EmptyString
  | String c s' => if isWhiteSpace c then String c (leadingWhitespace s') else EmptyString
  end.

Definition lowerChar (c : ascii) : ascii :=
  let n := nat_of_ascii c in
  if ((65 <=? n) && (n <=? 90))%nat then ascii_of_nat (n + 32) else c.

(** [s.toLowerCase()] on the ASCII range *)
Fixpoint toLowerCase (s : string) : string :=
  match s with
  | EmptyString => EmptyString
  | String c s' => String (lowerChar c) (toLowerCase s')
  end.

(** [s.repeat(n)] *)
Fixpoint repeat (s : string) (n : nat) : string :=
  match n with
  | O => EmptyString
  | S n' => s +:+ repeat s n'
  end.

(** Truthiness of a string: non-empty. *)
Definition truthy (s : string) : bool :=
  match s with EmptyString => false | _ => true end.

(** [a.slice(i, j)] on arrays, for [0 <= i <= j] *)
Definition arraySlice {A} (l : list A) (i j : nat) : list A :=
  take (j - i) (drop i l).

(** [a.splice(i, n, ...items)] : the array after the call *)
Definition splice {A} (l : list A) (i n : nat) (items : list A) : list A :=
  (take i l ++ items ++ drop (i + n) l)%list.

(** [a.map((x, j) => f(x, j))] *)
Definition mapi {A B} (f : A → nat → B) (l : list A) : list B :=
  imap (fun j x => f x j) l.

End Js.

(** ** Errors and results *)

Record JsError := mkError { message : string }.

Inductive result (A : Type) : Type :=
| Ok (a : A)
| Throw (e : JsError).
Arguments Ok {A} a.
Arguments Throw {A} e.

#[export] Instance result_ret : MRet result := fun A a => Ok a.

#[export] Instance result_bind : MBind result := fun A B k r =>
  match r with
  | Ok a => k a
  | Throw e => Throw e
  end.

(** [throw new Error(msg)] *)
Definition throw {A} (msg : string) : result A := Throw (mkError msg).

(** [try { body } catch (error) { handler }] *)
Definition try_catch {A} (body : result A) (handler : JsError → result A) : result A :=
  match body with
  | Ok a => Ok a
  | Throw e => handler e
  end.

(** The error kinds of the interface, recognised by the message the code
    throws. *)
Inductive ErrorKind := AccessDenied | ParentMissing | EditNotFound | OtherError.

Definition errorKind (e : JsError) : ErrorKind :=
  if Js.startsWith (message e) "Access denied" then AccessDenied
  else if Js.startsWith (message e) "Parent directory does not exist" then ParentMissing
  else if Js.startsWith (message e) "Could not find exact match for edit" then EditNotFound
  else OtherError.

(** ** The Node [path] module

    [path] is platform specific ([path.posix], [path.win32]); the code is
    written against its interface. [resolve] and [relative] read the
    working directory, passed here as their first argument. *)

Class PathModule := {
  isAbsolute : string → bool;
  resolve : string → list string → string;
  normalize : string → string;
  dirname : string → string;
  join : list string → string;
  relative : string → string → string → string;
}.

(** [path.posix], on path segments. *)
Module Posix.

Definition slash : ascii := "/"%char.

(** [normalizeString]: drops empty and [.] segments and resolves [..]
    against the segment before it; above the top [..] is kept only when
    [allowAboveRoot]. [res] is the result so far, last segment first. *)
Fixpoint normalizeSegments (allowAboveRoot : bool) (segs res : list string)
  : list string :=
  match segs with
  | [] => rev res
  | seg :: rest =>
      if (seg =? EmptyString) || (seg =? ".") then normalizeSegments allowAboveRoot rest res
      else if seg =? ".." then
        match res with
        | last :: res' =>
            if last =? ".." then
              normalizeSegments allowAboveRoot rest
                (if allowAboveRoot then ".." :: res else res)
            else normalizeSegments allowAboveRoot rest res'
        | [] =>
            normalizeSegments allowAboveRoot rest
              (if allowAboveRoot then [".."] else [])
        end
      else normalizeSegments allowAboveRoot rest (seg :: res)
  end.

Definition normalizeString (p : string) (allowAboveRoot : bool) : string :=
  Js.join "/" (normalizeSegments allowAboveRoot (Js.split slash p) []).

Definition isAbsolute (p : string) : bool := Js.startsWith p "/".

Definition endsWithSlash (p : string) : bool :=
  match last (Js.split slash p) with
  | Some seg => (seg =? EmptyString) && negb (p =? EmptyString)
  | None => false
  end.

Definition normalize (p : string) : string :=
  if p =? EmptyString then "."
  else
    let absolute := isAbsolute p in
    let trailingSeparator := endsWithSlash p in
    let n := normalizeString p (negb absolute) in
    if n =? EmptyString then
      if absolute then "/" else if trailingSeparator then "./" else "."
    else
      let n := if trailingSeparator then n +:+ "/" else n in
      if absolute then "/" +:+ n else n.

(** The right-to-left loop of [resolve]: arguments are prepended until
    an absolute one is met. *)
Fixpoint resolveLoop (revArgs : list string) (resolvedPath : string)
  : string * bool :=
  match revArgs with
  | [] => (resolvedPath, false)
  | p :: rest =>
      if p =? EmptyString then resolveLoop rest resolvedPath
      else
        let resolvedPath := p +:+ "/" +:+ resolvedPath in
        if isAbsolute p then (resolvedPath, true)
        else resolveLoop rest resolvedPath
  end.

Definition resolve (cwd : string) (args : list string) : string :=
  let '(resolvedPath, resolvedAbsolute) := resolveLoop (rev args ++ [cwd])%list EmptyString in
  let n := normalizeString resolvedPath (negb resolvedAbsolute) in
  if resolvedAbsolute then "/" +:+ n
  else if n =? EmptyString then "." else n.

Definition joinArgs (args : list string) : string :=
  match filter (fun a => a ≠ EmptyString) args with
  | [] => "."
  | parts => normalize (Js.join "/" parts)
  end.

(** Trailing slashes are ignored; the result is the text before the last
    slash that is followed by a name. *)
Fixpoint dropTrailingEmpty (revSegs : list string) : list string :=
  match revSegs with
  | seg :: rest => if seg =? EmptyString then dropTrailingEmpty rest else revSegs
  | [] => []
  end.

Definition dirname (p : string) : string :=
  if p =? EmptyString then "."
  else
    let hasRoot := isAbsolute p in
    match dropTrailingEmpty (rev (Js.split slash p)) with
    | _ :: revParent =>
        match revParent with
        | [] => if hasRoot then "/" else "."
        | _ =>
            let parent := Js.join "/" (rev revParent) in
            if parent =? EmptyString then (if hasRoot then "/" else ".")
            else if hasRoot && (parent =? "/") then "//"
            else parent
        end
    | [] => if hasRoot then "/" else "."
    end.

Fixpoint stripCommon (from to : list string) : list string * list string :=
  match from, to with
  | f :: from', t :: to' => if f =? t then stripCommon from' to' else (from, to)
  | _, _ => (from, to)
  end.

Definition segments (absolutePath : string) : list string :=
  filter (fun seg => seg ≠ EmptyString) (Js.split slash absolutePath).

Definition relative (cwd from to : string) : string :=
  if from =? to then EmptyString
  else
    let from := resolve cwd [from] in
    let to := resolve cwd [to] in
    if from =? to then EmptyString
    else
      let '(up, down) := stripCommon (segments from) (segments to) in
      Js.join "/" (map (fun _ => "..") up ++ down)%list.

#[global] Instance posix : PathModule :=
  Build_PathModule isAbsolute resolve normalize dirname joinArgs relative.

End Posix.

(** ** Process environment and file system *)

(** [process.argv.slice(2)], [process.cwd()] and [os.homedir()]. *)
Record Process := {
  args : list string;
  cwd : string;
  homedir : string;
}.

(** A [Dirent] of [fs.readdir(_, { withFileTypes: true })]. *)
Record Dirent := {
  name : string;
  isDirectory : bool;
}.

(** What the code observes of the file system: the text of the readable
    files, the real path of every existing path (symbolic links followed),
    and the entries of every directory. *)
Record FileSystem := {
  files : gmap string string;
  realpaths : gmap string string;
  directories : gmap string (list Dirent);
}.

(** [fs.realpath(p)]; the failure in the model is that of a missing path. *)
Definition fs_realpath (fs : FileSystem) (p : string) : result string :=
  match realpaths fs !! p with
  | Some real => Ok real
  | None => throw ("ENOENT: no such file or directory, realpath '" +:+ p +:+ "'")
  end.

(** [fs.readdir(p, { withFileTypes: true })]; the failure in the model is
    that of a missing path. *)
Definition fs_readdir (fs : FileSystem) (p : string) : result (list Dirent) :=
  match directories fs !! p with
  | Some entries => Ok entries
  | None => throw ("ENOENT: no such file or directory, scandir '" +:+ p +:+ "'")
  end.

(** Code that may write: a computation threads the file system and ends
    in a value or a thrown error; what was written before a throw stays. *)
Definition M (A : Type) : Type := FileSystem → result A * FileSystem.

#[export] Instance M_ret : MRet M := fun A a fs => (Ok a, fs).

#[export] Instance M_bind : MBind M := fun A B k m fs =>
  match m fs with
  | (Ok a, fs') => k a fs'
  | (Throw e, fs') => (Throw e, fs')
  end.

Definition lift {A} (r : result A) : M A := fun fs => (r, fs).

(** [fs.readFile(p, 'utf-8')]; the failure in the model is that of a
    missing path, and the text is handed over as stored. *)
Definition fs_readFile (p : string) : M string := fun fs =>
  match files fs !! p with
  | Some text => (Ok text, fs)
  | None => (throw ("ENOENT: no such file or directory, open '" +:+ p +:+ "'"), fs)
  end.

(** [fs.writeFile(p, text, 'utf-8')]: the text stored under the path [p].
    A write that fails, the directory entry and real path of a new file,
    and a write through a link to another path are outside the model. *)
Definition fs_writeFile (p text : string) : M unit := fun fs =>
  (Ok tt, {| files := <[p := text]> (files fs);
             realpaths := realpaths fs;
             directories := directories fs |}).

Definition LF : string := String "010"%char EmptyString.

(** ** Security utilities *)

Section PathGuard.
Context `{PathModule} (proc : Process).

Definition normalizePath (p : string) : string :=
  Js.toLowerCase (normalize p).

Definition expandHome (filepath : string) : string :=
  if Js.startsWith filepath "~/" || (filepath =? "~")
  then join [homedir proc; Js.sliceFrom 1 filepath]
  else filepath.

Definition allowedDirectories : list string :=
  map (fun dir => normalizePath (resolve (cwd proc) [expandHome dir])) (args proc).

Definition validatePath (fs : FileSystem) (requestedPath : string) : result string :=
  let expandedPath := expandHome requestedPath in
  let absolute :=
    if isAbsolute expandedPath
    then resolve (cwd proc) [expandedPath]
    else resolve (cwd proc) [cwd proc; expandedPath] in
  let normalizedRequested := normalizePath absolute in
  let isAllowed :=
    existsb (fun dir => Js.startsWith normalizedRequested dir) allowedDirectories in
  if negb isAllowed then
    throw ("Access denied - path outside allowed directories: " +:+ absolute
           +:+ " not in " +:+ Js.join ", " allowedDirectories)
  else
    try_catch
      (realPath ← fs_realpath fs absolute;
       let normalizedReal := normalizePath realPath in
       let isRealPathAllowed :=
         existsb (fun dir => Js.startsWith normalizedReal dir) allowedDirectories in
       if negb isRealPathAllowed then
         throw "Access denied - symlink target outside allowed directories"
       else Ok realPath)
      (fun error =>
         let parentDir := dirname absolute in
         try_catch
           (realParentPath ← fs_realpath fs parentDir;
            let normalizedParent := normalizePath realParentPath in
            let isParentAllowed :=
              existsb (fun dir => Js.startsWith normalizedParent dir) allowedDirectories in
            if negb isParentAllowed then
              throw "Access denied - parent directory outside allowed directories"
            else Ok absolute)
           (fun _ => throw ("Parent directory does not exist: " +:+ parentDir))).

End PathGuard.

(** ** File editing and diffing utilities *)

Record Edit := {
  oldText : string;
  newText : string;
}.

(** [text.replace(/\r\n/g, '\n')] *)
Fixpoint normalizeLineEndings (text : string) : string :=
  match text with
  | EmptyString => EmptyString
  | String "013" (String "010" rest) => String "010" (normalizeLineEndings rest)
  | String c rest => String c (normalizeLineEndings rest)
  end.

Definition newline : ascii := "010"%char.

(** The callback of [normalizedNew.split('\n').map((line, j) => ...)]. *)
Definition reindent (originalIndent : string) (oldLines : list string)
    (line : string) (j : nat) : string :=
  if (j =? 0)%nat then originalIndent +:+ Js.trimStart line
  else
    let oldIndent :=
      match oldLines !! j with
      | Some oldLine => Js.leadingWhitespace oldLine
      | None => EmptyString
      end in
    let newIndent := Js.leadingWhitespace line in
    if Js.truthy oldIndent && Js.truthy newIndent then
      let relativeIndent :=
        (Z.of_nat (String.length newIndent) - Z.of_nat (String.length oldIndent))%Z in
      originalIndent +:+ Js.repeat " " (Z.to_nat (Z.max 0 relativeIndent))
        +:+ Js.trimStart line
    else line.

(** [oldLines.every((oldLine, j) => oldLine.trim() === potentialMatch[j].trim())].
    The window always has as many lines as [oldLines]; the [None] case
    stands for the access the loop bound rules out. *)
Definition isMatch (oldLines potentialMatch : list string) : bool :=
  forallb id
    (Js.mapi (fun oldLine j =>
                match potentialMatch !! j with
                | Some contentLine => Js.trim oldLine =? Js.trim contentLine
                | None => false
                end) oldLines).

(** The [for] loop over the window start [i]; [iterations] is the number
    of starts left, and the result is the new content at the first match. *)
Fixpoint fuzzyLoop (oldLines contentLines : list string) (normalizedNew : string)
    (i iterations : nat) : option string :=
  match iterations with
  | O => None
  | S iterations' =>
      let potentialMatch := Js.arraySlice contentLines i (i + length oldLines) in
      if isMatch oldLines potentialMatch then
        let originalIndent :=
          match contentLines !! i with
          | Some contentLine => Js.leadingWhitespace contentLine
          | None => EmptyString
          end in
        let newLines :=
          Js.mapi (reindent originalIndent oldLines) (Js.split newline normalizedNew) in
        Some (Js.join LF (Js.splice contentLines i (length oldLines) newLines))
      else fuzzyLoop oldLines contentLines normalizedNew (S i) iterations'
  end.

(** [i] ranges over [0 .. contentLines.length - oldLines.length]. *)
Definition windowStarts (oldLines contentLines : list string) : nat :=
  Z.to_nat (Z.of_nat (length contentLines) - Z.of_nat (length oldLines) + 1).

(** The body of [for (const edit of edits)]. *)
Definition applyEdit (modifiedContent : string) (edit : Edit) : result string :=
  let normalizedOld := normalizeLineEndings (oldText edit) in
  let normalizedNew := normalizeLineEndings (newText edit) in
  if Js.includes modifiedContent normalizedOld then
    Ok (Js.replace modifiedContent normalizedOld normalizedNew)
  else
    let oldLines := Js.split newline normalizedOld in
    let contentLines := Js.split newline modifiedContent in
    match fuzzyLoop oldLines contentLines normalizedNew 0
            (windowStarts oldLines contentLines) with
    | Some content => Ok content
    | None => throw ("Could not find exact match for edit:" +:+ LF +:+ oldText edit)
    end.

Fixpoint applyEdits (modifiedContent : string) (edits : list Edit) : result string :=
  match edits with
  | [] => Ok modifiedContent
  | edit :: rest =>
      modifiedContent ← applyEdit modifiedContent edit;
      applyEdits modifiedContent rest
  end.

(** [while (diff.includes('`'.repeat(numBackticks))) numBackticks++].
    A run longer than [diff] cannot occur in it, so [String.length diff]
    rounds are enough. *)
Fixpoint fenceLoop (diff : string) (numBackticks rounds : nat) : nat :=
  match rounds with
  | O => numBackticks
  | S rounds' =>
      if Js.includes diff (Js.repeat "`" numBackticks)
      then fenceLoop diff (S numBackticks) rounds'
      else numBackticks
  end.

Section PatchEngine.
(** [createTwoFilesPatch] of the [diff] package:
    old file name, new file name, old text, new text, old header, new header. *)
Variable createTwoFilesPatch : string → string → string → string → string → string → string.

Definition createUnifiedDiff (originalContent newContent filepath : string) : string :=
  let normalizedOriginal := normalizeLineEndings originalContent in
  let normalizedNew := normalizeLineEndings newContent in
  createTwoFilesPatch filepath filepath normalizedOriginal normalizedNew
    "original" "modified".

Definition formatDiff (diff : string) : string :=
  let numBackticks := fenceLoop diff 3 (String.length diff) in
  Js.repeat "`" numBackticks +:+ "diff" +:+ LF +:+ diff
    +:+ Js.repeat "`" numBackticks +:+ LF +:+ LF.

Definition applyFileEdits (filePath : string) (edits : list Edit) (dryRun : bool)
  : M string :=
  raw ← fs_readFile filePath;
  let content := normalizeLineEndings raw in
  modifiedContent ← lift (applyEdits content edits);
  let diff := createUnifiedDiff content modifiedContent filePath in
  let formattedDiff := formatDiff diff in
  _ ← (if negb dryRun then fs_writeFile filePath modifiedContent else mret tt);
  mret formattedDiff.

End PatchEngine.

(** ** Search *)

Section SearchEngine.
Context `{PathModule} (proc : Process).
(** [minimatch(path, pattern, { dot: true })] *)
Variable minimatch : string → string → bool.

Definition globPattern (pattern : string) : string :=
  if Js.includes pattern "*" then pattern else "**/" +:+ pattern +:+ "/**".

Definition shouldExclude (excludePatterns : list string) (relativePath : string) : bool :=
  existsb (fun pattern => minimatch relativePath (globPattern pattern)) excludePatterns.

(** One round of [for (const entry of entries)] in [search(currentPath)]:
    the [results] array after it. [recur] is the nested call
    [search(fullPath)], which returns [None] when the directories nest
    deeper than the bound it was given; whatever is thrown inside the
    [try] block, by [validatePath] or by the nested call, is caught and
    the loop goes on. *)
Definition visit (recur : string → list string → option (result unit * list string))
    (fs : FileSystem) (rootPath pattern : string) (excludePatterns : list string)
    (currentPath : string) (entry : Dirent) (results : list string)
  : option (list string) :=
  let fullPath := join [currentPath; name entry] in
  match validatePath proc fs fullPath with
  | Throw _ => Some results
  | Ok _ =>
      let relativePath := relative (cwd proc) rootPath fullPath in
      if shouldExclude excludePatterns relativePath then Some results
      else
        let results :=
          if Js.includes (Js.toLowerCase (name entry)) (Js.toLowerCase pattern)
          then (results ++ [fullPath])%list else results in
        if isDirectory entry then
          match recur fullPath results with
          | None => None
          | Some (_, results) => Some results
          end
        else Some results
  end.

Fixpoint forEntries (body : Dirent → list string → option (list string))
    (entries : list Dirent) (results : list string) : option (list string) :=
  match entries with
  | [] => Some results
  | entry :: rest =>
      match body entry results with
      | None => None
      | Some results => forEntries body rest results
      end
  end.

(** The inner [search(currentPath)] with the [results] array it pushes
    to. [depth] bounds the nesting of directories; [None] means it was
    too small. Only [readdir] of [currentPath] itself makes a call throw. *)
Fixpoint search (fs : FileSystem) (rootPath pattern : string)
    (excludePatterns : list string) (depth : nat)
    (currentPath : string) (results : list string)
  : option (result unit * list string) :=
  match depth with
  | O => None
  | S depth' =>
      match fs_readdir fs currentPath with
      | Throw e => Some (Throw e, results)
      | Ok entries =>
          match forEntries
                  (visit (search fs rootPath pattern excludePatterns depth')
                     fs rootPath pattern excludePatterns currentPath)
                  entries results with
          | None => None
          | Some results => Some (Ok tt, results)
          end
      end
  end.

Definition searchFiles (fs : FileSystem) (depth : nat) (rootPath pattern : string)
    (excludePatterns : list string) : option (result (list string)) :=
  match search fs rootPath pattern excludePatterns depth rootPath [] with
  | None => None
  | Some (Ok _, results) => Some (Ok results)
  | Some (Throw e, _) => Some (Throw e)
  end.

End SearchEngine.

(** A model of [minimatch] with [{ dot: true }] for patterns made of
    literal segments and [**]: the segment-wise [matchOne] of the
    package, where [**] swallows any number of segments other than [.]
    and [..], and a pattern that outlasts the path does not match. *)
Module Glob.

Definition dots (seg : string) : bool := (seg =? ".") || (seg =? "..").

Fixpoint matchOne (pattern file : list string) : bool :=
  match pattern with
  | [] =>
      match file with
      | [] => true
      | [f] => f =? EmptyString
      | _ => false
      end
  | p :: pattern' =>
      match file with
      | [] => false
      | f :: file' =>
          if p =? "**" then
            match pattern' with
            | [] => forallb (fun seg => negb (dots seg)) file
            | _ =>
                (fix swallow (file : list string) : bool :=
                   match file with
                   | [] => false
                   | swallowee :: rest =>
                       matchOne pattern' file
                       || (negb (dots swallowee) && swallow rest)
                   end) file
            end
          else (f =? p) && matchOne pattern' file'
      end
  end.

Definition minimatch (p pattern : string) : bool :=
  matchOne (Js.split "/" pattern) (Js.split "/" p).

End Glob.

(** ** Vocabulary of the specification *)

Section PathGuardVocabulary.
Context `{PathModule} (proc : Process).

(** The absolute form of a requested path, as [validatePath] computes it. *)
Definition absolutePath (requestedPath : string) : string :=
  let expandedPath := expandHome proc requestedPath in
  if isAbsolute expandedPath
  then resolve (cwd proc) [expandedPath]
  else resolve (cwd proc) [cwd proc; expandedPath].

(** The containment check of the code, on a normalized path. *)
Definition startsWithRoot (normalized : string) : bool :=
  existsb (fun dir => Js.startsWith normalized dir) (allowedDirectories proc).

(** What the [catch] block of [validatePath] amounts to: the parent
    check, where the error thrown for a parent outside the allowed
    directories is itself caught and replaced. *)
Definition parentCheck (fs : FileSystem) (absolute : string) : result string :=
  match realpaths fs !! dirname absolute with
  | Some realParent =>
      if startsWithRoot (normalizePath realParent) then Ok absolute
      else throw ("Parent directory does not exist: " +:+ dirname absolute)
  | None => throw ("Parent directory does not exist: " +:+ dirname absolute)
  end.

End PathGuardVocabulary.

(** Containment on full path segments: the segments of [root] are the
    first segments of [p]. *)
Definition containedInRoot (root p : string) : bool :=
  bool_decide (Posix.segments root `prefix_of` Posix.segments p).

(** [sub] occurs verbatim in [s] at offset [pos]. *)
Definition occursAt (s sub : string) (pos : nat) : Prop :=
  ∃ after, s = Js.sliceTo pos s +:+ sub +:+ after ∧ String.length (Js.sliceTo pos s) = pos.

(** The window of [contentLines] that starts at line [i] matches
    [oldLines]: line by line, the trimmed forms are equal. *)
Definition windowMatches (oldLines contentLines : list string) (i : nat) : Prop :=
  ∀ j oldLine, oldLines !! j = Some oldLine →
    ∃ contentLine,
      contentLines !! (i + j)%nat = Some contentLine
      ∧ Js.trim oldLine = Js.trim contentLine.

Definition matchesExactly (content : string) (edit : Edit) : Prop :=
  Js.includes content (normalizeLineEndings (oldText edit)) = true.

Definition matchesFuzzily (content : string) (edit : Edit) : Prop :=
  ∃ i, windowMatches (Js.split newline (normalizeLineEndings (oldText edit)))
         (Js.split newline content) i.

(** What the loop returns when the window at [i] is the one replaced. *)
Definition fuzzyReplace (oldLines contentLines : list string) (normalizedNew : string)
    (i : nat) : string :=
  let originalIndent :=
    match contentLines !! i with
    | Some contentLine => Js.leadingWhitespace contentLine
    | None => EmptyString
    end in
  Js.join LF
    (Js.splice contentLines i (length oldLines)
       (Js.mapi (reindent originalIndent oldLines) (Js.split newline normalizedNew))).

(** What a successful [applyFileEdits] returns: the diff of the content
    read and the final content, inside its fence. *)
Definition renderedDiff
    (createTwoFilesPatch : string → string → string → string → string → string → string)
    (content final filePath : string) : string :=
  formatDiff (createUnifiedDiff createTwoFilesPatch content final filePath).

(** The file system after [fs.writeFile(filePath, text)]. *)
Definition written (fs : FileSystem) (filePath text : string) : FileSystem :=
  {| files := <[filePath := text]> (files fs);
     realpaths := realpaths fs;
     directories := directories fs |}.

(** The error thrown for an edit that matches neither way. *)
Definition editNotFound (edit : Edit) : JsError :=
  mkError ("Could not find exact match for edit:" +:+ LF +:+ oldText edit).

(** ** Example configurations *)

Module Examples.

(** The server started as [mcp-server-filesystem /allowed]. *)
Definition proc : Process :=
  {| args := ["/allowed"]; cwd := "/srv"; homedir := "/home/user" |}.

(** Paths that are their own real path. *)
Definition plain (paths : list string) : gmap string string :=
  list_to_map (map (fun p => (p, p)) paths).

(** A regular file next to the allowed directory. *)
Definition siblingFs : FileSystem :=
  {| files := {[ "/allowed-evil/x" := "secret" ]};
     realpaths := plain ["/"; "/allowed"; "/allowed-evil"; "/allowed-evil/x"];
     directories := ∅ |}.

(** [/allowed/link] is a symbolic link to the file [/etc/passwd]. *)
Definition fileLinkFs : FileSystem :=
  {| files := {[ "/etc/passwd" := "root:x:0:0"; "/allowed/link" := "root:x:0:0" ]};
     realpaths := <[ "/allowed/link" := "/etc/passwd" ]>
                    (plain ["/"; "/allowed"; "/etc"; "/etc/passwd"]);
     directories := ∅ |}.

(** [/allowed/link] is a symbolic link to the directory [/outside]. *)
Definition dirLinkFs : FileSystem :=
  {| files := ∅;
     realpaths := <[ "/allowed/link" := "/outside" ]>
                    (plain ["/"; "/allowed"; "/outside"]);
     directories := ∅ |}.

(** [/tmp/link] is a symbolic link to the directory [/allowed]. *)
Definition inwardLinkFs : FileSystem :=
  {| files := ∅;
     realpaths := <[ "/tmp/link" := "/allowed" ]> (plain ["/"; "/allowed"; "/tmp"]);
     directories := ∅ |}.

(** A source file under the allowed directory. *)
Definition sourceText : string :=
  "function f() {" +:+ LF +:+ "  return x;" +:+ LF +:+ "}".

Definition sourceFs : FileSystem :=
  {| files := {[ "/allowed/f.js" := sourceText ]};
     realpaths := plain ["/"; "/allowed"; "/allowed/f.js"];
     directories := ∅ |}.

(** A stand-in for [createTwoFilesPatch]: the two header lines, then
    the old text and the new text. *)
Definition wholeFilePatch
    (oldFileName newFileName oldStr newStr oldHeader newHeader : string) : string :=
  "--- " +:+ oldFileName +:+ " " +:+ oldHeader +:+ LF
  +:+ "+++ " +:+ newFileName +:+ " " +:+ newHeader +:+ LF
  +:+ "-" +:+ oldStr +:+ LF +:+ "+" +:+ newStr +:+ LF.

Definition returnY : Edit := {| oldText := "return x;"; newText := "return y;" |}.
Definition returnZ : Edit := {| oldText := "return z;"; newText := "return 0;" |}.

(** A shell script line and an edit whose new text is the shell
    variable of the process id. *)
Definition processId : Edit := {| oldText := "TOTAL"; newText := "$$" |}.

(** The server started on [/root], with a [build] and a [src]
    directory that each hold a file [foo.txt]. *)
Definition searchProc : Process :=
  {| args := ["/root"]; cwd := "/root"; homedir := "/home/user" |}.

Definition treeFs : FileSystem :=
  {| files := {[ "/root/build/foo.txt" := "built"; "/root/src/foo.txt" := "source" ]};
     realpaths := plain ["/"; "/root"; "/root/build"; "/root/build/foo.txt";
                         "/root/src"; "/root/src/foo.txt"];
     directories :=
       {[ "/root" := [ {| name := "build"; isDirectory := true |};
                       {| name := "src"; isDirectory := true |} ];
          "/root/build" := [ {| name := "foo.txt"; isDirectory := false |} ];
          "/root/src" := [ {| name := "foo.txt"; isDirectory := false |} ] ]} |}.

(** Only the allowed directory exists. *)
Definition emptyRootFs : FileSystem :=
  {| files := ∅; realpaths := plain ["/"; "/allowed"]; directories := ∅ |}.

End Examples.

(** ** Tool handlers *)

(** The answer of the [CallToolRequest] handler: the text of its one
    content block, and [isError]. *)
Record ToolResult := {
  resultText : string;
  isError : bool;
}.

(** A tool request whose arguments passed their schema. The tools that
    call [fs.mkdir], [fs.rename] or [fs.stat] are not part of the model;
    [unknown_tool] is the [default] branch. *)
Inductive ToolCall :=
| read_file (path : string)
| read_multiple_files (paths : list string)
| write_file (path content : string)
| edit_file (path : string) (edits : list Edit) (dryRun : bool)
| list_directory (path : string)
| search_files (path pattern : string) (excludePatterns : list string)
| list_allowed_directories
| unknown_tool (toolName : string).

(** The [catch] of the handler: [{ content: [...], isError: true }]
    with the message of the error. *)
Definition toolResponse (r : result string) : ToolResult :=
  match r with
  | Ok text => {| resultText := text; isError := false |}
  | Throw e => {| resultText := "Error: " +:+ message e; isError := true |}
  end.

Section Tools.
Context `{PathModule} (proc : Process).
Variable createTwoFilesPatch : string → string → string → string → string → string → string.
Variable minimatch : string → string → bool.

(** [await validatePath(p)] inside a handler *)
Definition validatePathM (p : string) : M string :=
  fun fs => (validatePath proc fs p, fs).

(** [await fs.readdir(p, { withFileTypes: true })] inside a handler *)
Definition readdirM (p : string) : M (list Dirent) :=
  fun fs => (fs_readdir fs p, fs).

(** [case "read_file"] *)
Definition readFileTool (path : string) : M string :=
  validPath ← validatePathM path;
  content ← fs_readFile validPath;
  mret content.

(** The callback of [parsed.data.paths.map(...)] in
    [case "read_multiple_files"]: it reads only, and catches what it throws. *)
Definition readOne (fs : FileSystem) (filePath : string) : string :=
  match readFileTool filePath fs with
  | (Ok content, _) => filePath +:+ ":" +:+ LF +:+ content +:+ LF
  | (Throw error, _) => filePath +:+ ": Error - " +:+ message error
  end.

(** [case "read_multiple_files"] *)
Definition readMultipleFilesTool (paths : list string) : M string :=
  fun fs => (Ok (Js.join (LF +:+ "---" +:+ LF) (map (readOne fs) paths)), fs).

(** [case "write_file"] *)
Definition writeFileTool (path content : string) : M string :=
  validPath ← validatePathM path;
  _ ← fs_writeFile validPath content;
  mret ("Successfully wrote to " +:+ path).

(** [case "edit_file"] *)
Definition editFileTool (path : string) (edits : list Edit) (dryRun : bool) : M string :=
  validPath ← validatePathM path;
  applyFileEdits createTwoFilesPatch validPath edits dryRun.

(** [case "list_directory"] *)
Definition listDirectoryTool (path : string) : M string :=
  validPath ← validatePathM path;
  entries ← readdirM validPath;
  mret (Js.join LF
          (map (fun entry =>
                  (if isDirectory entry then "[DIR]" else "[FILE]") +:+ " " +:+ name entry)
             entries)).

(** [case "search_files"]; [depth] is the bound given to [searchFiles]. *)
Definition searchFilesTool (depth : nat) (path pattern : string)
    (excludePatterns : list string) (fs : FileSystem)
  : option (result string * FileSystem) :=
  match validatePath proc fs path with
  | Throw e => Some (Throw e, fs)
  | Ok validPath =>
      match searchFiles proc minimatch fs depth validPath pattern excludePatterns with
      | None => None
      | Some (Throw e) => Some (Throw e, fs)
      | Some (Ok results) =>
          Some (Ok (if (0 <? length results)%nat then Js.join LF results
                    else "No matches found"), fs)
      end
  end.

(** [case "list_allowed_directories"] *)
Definition listAllowedDirectoriesTool : M string :=
  mret ("Allowed directories:" +:+ LF +:+ Js.join LF (allowedDirectories proc)).

(** The handler of [CallToolRequestSchema]: the [switch] inside the
    [try], and the [catch] that turns an error into an answer. *)
Definition callTool (depth : nat) (call : ToolCall) (fs : FileSystem)
  : option (ToolResult * FileSystem) :=
  let body : option (result string * FileSystem) :=
    match call with
    | read_file path => Some (readFileTool path fs)
    | read_multiple_files paths => Some (readMultipleFilesTool paths fs)
    | write_file path content => Some (writeFileTool path content fs)
    | edit_file path edits dryRun => Some (editFileTool path edits dryRun fs)
    | list_directory path => Some (listDirectoryTool path fs)
    | search_files path pattern excludePatterns =>
        searchFilesTool depth path pattern excludePatterns fs
    | list_allowed_directories => Some (listAllowedDirectoriesTool fs)
    | unknown_tool toolName => Some (throw ("Unknown tool: " +:+ toolName), fs)
    end in
  match body with
  | None => None
  | Some (r, fs') => Some (toolResponse r, fs')
  end.

End Tools.

(** ** File type detection *)

Inductive FileType := TEXT | IMAGE | BINARY.

(** [list.includes(s)] on an array of strings *)
Definition arrayIncludes (l : list string) (s : string) : bool :=
  existsb (fun x => x =? s) l.

Definition textTypes : list string :=
  ["application/json"; "application/javascript"; "application/typescript";
   "application/xml"; "application/csv"; "application/tsv"].

Definition binaryTypes : list string :=
  ["application/octet-stream"; "application/pdf"; "application/zip";
   "application/x-tar"; "application/x-gzip"; "application/x-bzip2";
   "application/x-7z-compressed"; "application/x-rar"; "application/x-xz"].

(** [loadAsType(mimeType, stats)]; of [stats] only [stats.size] is read. *)
Definition loadAsType (mimeType : string) (size : Z) : FileType :=
  if Js.startsWith mimeType "text/" || arrayIncludes textTypes mimeType then TEXT
  else if Js.startsWith mimeType "image/" then IMAGE
  else if arrayIncludes binaryTypes mimeType then BINARY
  else if (size <? 100 * 1024)%Z then TEXT
  else BINARY.

(** [mimeTypes.lookup(p) || fallback]: [lookup] answers [false] for a
    path it does not know, [None] here. *)
Definition mimeTypeOr (lookup : string → option string) (p fallback : string) : string :=
  match lookup p with
  | Some mimeType => if Js.truthy mimeType then mimeType else fallback
  | None => fallback
  end.

(** [line] is [indent] followed by [body], where [indent] is white space
    only and [body] does not start with white space. *)
Definition indentedAs (line indent body : string) : Prop :=
  line = indent +:+ body
  ∧ Forall (fun c => Js.isWhiteSpace c = true) (list_ascii_of_string indent)
  ∧ match body with
    | String c _ => Js.isWhiteSpace c = false
    | EmptyString => True
    end.

(** Two characters that are the same, or the same letter of A to Z in
    its two cases. *)
Definition sameLetter (a b : ascii) : Prop :=
  a = b
  ∨ ((65 ≤ nat_of_ascii a ≤ 90)%nat ∧ nat_of_ascii b = (nat_of_ascii a + 32)%nat)
  ∨ ((65 ≤ nat_of_ascii b ≤ 90)%nat ∧ nat_of_ascii a = (nat_of_ascii b + 32)%nat).

(** Two texts that differ in the case of letters at most. *)
Inductive sameUpToCase : string → string → Prop :=
| sameUpToCase_nil : sameUpToCase EmptyString EmptyString
| sameUpToCase_cons (a b : ascii) (s t : string) :
    sameLetter a b → sameUpToCase s t → sameUpToCase (String a s) (String b t).

(** A string that [split] does not cut: it holds no line feed. *)
Definition singleLine (s : string) : Prop := Js.split newline s = [s].

(** Carriage return followed by line feed. *)
Definition CRLF : string := String "013"%char LF.

(** [p] is an entry that a search under [rootPath] keeps: it passed
    [validatePath], no exclude pattern matches its relative path, and it
    is an entry of a listed directory whose name holds the pattern, letter
    case aside. *)
Definition keptBySearch `{PathModule} (proc : Process)
    (minimatch : string → string → bool) (fs : FileSystem)
    (rootPath pattern : string) (excludePatterns : list string) (p : string) : Prop :=
  (∃ valid, validatePath proc fs p = Ok valid)
  ∧ shouldExclude minimatch excludePatterns (relative (cwd proc) rootPath p) = false
  ∧ ∃ dir entries entry,
      directories fs !! dir = Some entries
      ∧ entry ∈ entries
      ∧ p = join [dir; name entry]
      ∧ Js.includes (Js.toLowerCase (name entry)) (Js.toLowerCase pattern) = true.

(** The path argument of a tool that takes one. *)
Definition toolPath (call : ToolCall) : option string :=
  match call with
  | read_file path | write_file path _ | edit_file path _ _
  | list_directory path | search_files path _ _ => Some path
  | read_multiple_files _ | list_allowed_directories | unknown_tool _ => None
  end.

(** ** File information *)

(** The character of the octal digit [d]. *)
Definition octalDigit (d : N) : ascii := ascii_of_N (48 + d).

(** The digits of [n.toString(8)], last digit first into [acc]; [rounds]
    bounds the number of digits. *)
Fixpoint octalLoop (rounds : nat) (n : N) (acc : string) : string :=
  match rounds with
  | O => acc
  | S rounds' =>
      let acc := String (octalDigit (n mod 8)) acc in
      if (n <? 8)%N then acc else octalLoop rounds' (n / 8) acc
  end.

(** [n.toString(8)] for a non-negative integer; a number has no more
    octal digits than binary ones. *)
Definition toStringOctal (n : N) : string :=
  octalLoop (S (N.to_nat (N.log2 n))) n EmptyString.

(** [s.slice(-k)] *)
Definition sliceLast (k : nat) (s : string) : string :=
  Js.sliceFrom (String.length s - k) s.

(** [stats.mode.toString(8).slice(-3)], the [permissions] of [getFileStats] *)
Definition permissions (mode : N) : string := sliceLast 3 (toStringOctal mode).

(** ** More example configurations *)

Module ToolExamples.

(** [/allowed/link] is a symbolic link to the file [/allowed/data.txt]. *)
Definition innerLinkFs : FileSystem :=
  {| files := {[ "/allowed/data.txt" := "42"; "/allowed/link" := "42" ]};
     realpaths := <[ "/allowed/link" := "/allowed/data.txt" ]>
                    (Examples.plain ["/"; "/allowed"; "/allowed/data.txt"]);
     directories := {[ "/allowed" := [ {| name := "data.txt"; isDirectory := false |};
                                       {| name := "link"; isDirectory := false |} ] ]} |}.

(** The server started as [mcp-server-filesystem /Allowed]. *)
Definition capsProc : Process :=
  {| args := ["/Allowed"]; cwd := "/srv"; homedir := "/home/user" |}.

End ToolExamples.

(** * Properties *)

(** ** The models on documented inputs *)

Example normalize_doc :
  Posix.normalize "/foo/bar//baz/asdf/quux/.." = "/foo/bar/baz/asdf".
Proof. reflexivity. Qed.

Example join_doc :
  Posix.joinArgs ["/foo"; "bar"; "baz/asdf"; "quux"; ".."] = "/foo/bar/baz/asdf".
Proof. reflexivity. Qed.

Example resolve_doc :
  Posix.resolve "/home/myself/node" ["wwwroot"; "static_files/png/"; "../gif/image.gif"]
  = "/home/myself/node/wwwroot/static_files/gif/image.gif".
Proof. reflexivity. Qed.

Example relative_doc :
  Posix.relative "/" "/data/orandea/test/aaa" "/data/orandea/impl/bbb" = "../../impl/bbb".
Proof. reflexivity. Qed.

Example dirname_doc : Posix.dirname "/foo/bar/baz/asdf/quux" = "/foo/bar/baz/asdf".
Proof. reflexivity. Qed.

Example replace_first_only : Js.replace "aXbXc" "X" "-" = "a-bXc".
Proof. reflexivity. Qed.

Example minimatch_directory_itself :
  Glob.minimatch "build" "**/build/**" = false
  ∧ Glob.minimatch "build/foo.txt" "**/build/**" = true
  ∧ Glob.minimatch "src/build/out/a.o" "**/build/**" = true.
Proof. repeat split. Qed.

Example expandHome_tilde :
  expandHome Examples.proc "~/notes.txt" = "/home/user/notes.txt"
  ∧ expandHome Examples.proc "~" = "/home/user"
  ∧ expandHome Examples.proc "~user/x" = "~user/x".
Proof. repeat split. Qed.

(** ** Strings and lists *)

Lemma append_cons (c : ascii) (s t : string) :
  String c s +:+ t = String c (s +:+ t).
Proof. reflexivity. Qed.

Lemma app_length_str (s t : string) :
  String.length (s +:+ t) = String.length s + String.length t.
Proof. induction s as [|c s IH]; simpl; [done | by rewrite IH]. Qed.

Lemma startsWith_length (s p : string) :
  Js.startsWith s p = true → (String.length p ≤ String.length s)%nat.
Proof.
  unfold Js.startsWith. revert s.
  induction p as [|a p IH]; intros [|b s]; simpl; try lia; try done.
  destruct (ascii_dec a b); [|done]. intros Hp. apply IH in Hp. lia.
Qed.

Lemma indexOf_unfold (s sub : string) :
  Js.indexOf s sub =
    if Js.startsWith s sub then Some 0
    else match s with
         | EmptyString => None
         | String _ s' => S <$> Js.indexOf s' sub
         end.
Proof. by destruct s. Qed.

Lemma indexOf_length (s sub : string) (pos : nat) :
  Js.indexOf s sub = Some pos → (pos + String.length sub ≤ String.length s)%nat.
Proof.
  revert pos. induction s as [|c s IH]; intros pos; rewrite indexOf_unfold.
  - destruct (Js.startsWith EmptyString sub) eqn:Hp; [|done].
    intros [= <-]. by apply startsWith_length in Hp.
  - destruct (Js.startsWith (String c s) sub) eqn:Hp.
    + intros [= <-]. by apply startsWith_length in Hp.
    + destruct (Js.indexOf s sub) as [n|]; simpl; [|done].
      intros [= <-]. specialize (IH n eq_refl). lia.
Qed.

Lemma includes_length (s sub : string) :
  Js.includes s sub = true → (String.length sub ≤ String.length s)%nat.
Proof.
  unfold Js.includes. destruct (Js.indexOf s sub) as [pos|] eqn:Hi; [|done].
  intros _. apply indexOf_length in Hi. lia.
Qed.

Lemma repeat_length (c : string) (n : nat) :
  String.length (Js.repeat c n) = n * String.length c.
Proof. induction n as [|n IH]; simpl; [done|]. rewrite app_length_str, IH. lia. Qed.

(** The fence chosen by the [while] loop does not occur in the diff: the
    rounds given to [fenceLoop] are enough. *)
Lemma fenceLoop_free (diff : string) (rounds n : nat) :
  (String.length diff < n + rounds)%nat →
  Js.includes diff (Js.repeat "`" (fenceLoop diff n rounds)) = false.
Proof.
  revert n. induction rounds as [|rounds IH]; intros n Hlen; simpl.
  - destruct (Js.includes diff (Js.repeat "`" n)) eqn:Hinc; [|done].
    apply includes_length in Hinc. rewrite repeat_length in Hinc. simpl in Hinc. lia.
  - destruct (Js.includes diff (Js.repeat "`" n)) eqn:Hinc; [|done].
    apply IH. lia.
Qed.

Lemma fence_not_in_diff (diff : string) :
  Js.includes diff (Js.repeat "`" (fenceLoop diff 3 (String.length diff))) = false.
Proof. apply fenceLoop_free. lia. Qed.

Lemma split_nonempty (sep : ascii) (s : string) : Js.split sep s ≠ [].
Proof.
  destruct s as [|c s]; simpl; [done|].
  destruct (Ascii.eqb c sep); [done|]. by destruct (Js.split sep s).
Qed.

Lemma forallb_imap {A} (f : nat → A → bool) (l : list A) :
  forallb id (imap f l) = true ↔ ∀ j x, l !! j = Some x → f j x = true.
Proof.
  revert f. induction l as [|a l IH]; intros f; simpl.
  - split; [intros _ j x Hj; by rewrite lookup_nil in Hj | done].
  - rewrite andb_true_iff, IH. split.
    + intros [H0 HS] [|j] x; simpl; [by intros [= <-] | apply HS].
    + intros Hall. split; [by apply (Hall 0) | intros j x Hj; by apply (Hall (S j))].
Qed.

(** ** Path guard *)

Section PathGuardProperties.
Context `{PathModule} (proc : Process).

(** [validatePath] by cases on what the file system answers. *)
Lemma validatePath_cases (fs : FileSystem) (requestedPath : string) :
  validatePath proc fs requestedPath =
    let absolute := absolutePath proc requestedPath in
    if startsWithRoot proc (normalizePath absolute) then
      match realpaths fs !! absolute with
      | Some realPath =>
          if startsWithRoot proc (normalizePath realPath) then Ok realPath
          else parentCheck proc fs absolute
      | None => parentCheck proc fs absolute
      end
    else
      throw ("Access denied - path outside allowed directories: " +:+ absolute
             +:+ " not in " +:+ Js.join ", " (allowedDirectories proc)).
Proof.
  unfold validatePath, parentCheck, absolutePath, startsWithRoot, fs_realpath.
  cbv zeta.
  destruct (existsb _ (allowedDirectories proc)); simpl; [|done].
  destruct (realpaths fs !! _) as [realPath|]; simpl.
  - destruct (existsb _ (allowedDirectories proc)); simpl; [done|].
    destruct (realpaths fs !! _) as [realParent|]; simpl; [|done].
    by destruct (existsb _ (allowedDirectories proc)).
  - destruct (realpaths fs !! _) as [realParent|]; simpl; [|done].
    by destruct (existsb _ (allowedDirectories proc)).
Qed.

(** The outcome of the parent check is the requested absolute path or
    the error about a missing parent, never an access-denied error. *)
Lemma parentCheck_kind (fs : FileSystem) (absolute : string) (e : JsError) :
  parentCheck proc fs absolute = Throw e → errorKind e = ParentMissing.
Proof.
  unfold parentCheck.
  destruct (realpaths fs !! dirname absolute) as [realParent|];
    [destruct (startsWithRoot proc (normalizePath realParent))|];
    try done; by intros [= <-].
Qed.

(** A path that passes the literal check and resolves outside the
    allowed directories is never answered with an access-denied error. *)
Lemma escaping_target_not_denied (fs : FileSystem) (requestedPath realPath : string)
    (e : JsError) :
  startsWithRoot proc (normalizePath (absolutePath proc requestedPath)) = true →
  realpaths fs !! absolutePath proc requestedPath = Some realPath →
  startsWithRoot proc (normalizePath realPath) = false →
  validatePath proc fs requestedPath = Throw e →
  errorKind e = ParentMissing.
Proof.
  intros Hlit Hreal Hout. rewrite validatePath_cases. cbv zeta.
  rewrite Hlit, Hreal, Hout. apply parentCheck_kind.
Qed.

(** A new path that passes the literal check and whose parent resolves
    outside the allowed directories is reported as a missing parent. *)
Lemma outside_parent_reported_missing (fs : FileSystem)
    (requestedPath realParent : string) :
  let absolute := absolutePath proc requestedPath in
  startsWithRoot proc (normalizePath absolute) = true →
  realpaths fs !! absolute = None →
  realpaths fs !! dirname absolute = Some realParent →
  startsWithRoot proc (normalizePath realParent) = false →
  validatePath proc fs requestedPath
  = throw ("Parent directory does not exist: " +:+ dirname absolute).
Proof.
  intros absolute Hlit Hnew Hparent Hout. rewrite validatePath_cases. cbv zeta.
  fold absolute. rewrite Hlit, Hnew. unfold parentCheck. fold absolute.
  by rewrite Hparent, Hout.
Qed.

(** C3 (as amended). A path that does not exist, that passes the literal
    containment check and whose parent directory exists with a real path
    inside an allowed directory is validated, and the value returned is
    the absolute requested path, not a real path. *)
Theorem C3_new_path_returns_absolute (fs : FileSystem)
    (requestedPath realParent : string) :
  let absolute := absolutePath proc requestedPath in
  startsWithRoot proc (normalizePath absolute) = true →
  realpaths fs !! absolute = None →
  realpaths fs !! dirname absolute = Some realParent →
  startsWithRoot proc (normalizePath realParent) = true →
  validatePath proc fs requestedPath = Ok absolute.
Proof.
  intros absolute Hlit Hnew Hparent Hin. rewrite validatePath_cases. cbv zeta.
  fold absolute. rewrite Hlit, Hnew. unfold parentCheck. fold absolute.
  by rewrite Hparent, Hin.
Qed.

End PathGuardProperties.

(** C3, at [/allowed/new.txt] under the allowed directory [/allowed]. *)
Lemma C3_new_path_witness :
  validatePath Examples.proc Examples.emptyRootFs "/allowed/new.txt"
  = Ok "/allowed/new.txt".
Proof.
  exact (C3_new_path_returns_absolute Examples.proc Examples.emptyRootFs
           "/allowed/new.txt" "/allowed" eq_refl eq_refl eq_refl eq_refl).
Defined.

(** C3 as first stated does not hold: when the parent is reached through a
    link from outside, its real path is inside an allowed directory and yet
    the literal check refuses the path. *)
Lemma C3_parent_inside_is_not_enough :
  ¬ (∀ (P : PathModule) (proc : Process) (fs : FileSystem)
       (requestedPath realParent : string),
        realpaths fs !! absolutePath proc requestedPath = None →
        realpaths fs !! dirname (absolutePath proc requestedPath) = Some realParent →
        startsWithRoot proc (normalizePath realParent) = true →
        validatePath proc fs requestedPath = Ok (absolutePath proc requestedPath)).
Proof.
  intros Hall.
  specialize (Hall Posix.posix Examples.proc Examples.inwardLinkFs
                "/tmp/link/new.txt" "/allowed" eq_refl eq_refl eq_refl).
  vm_compute in Hall. discriminate Hall.
Qed.

(** C1. With [/allowed] the only allowed directory, the existing file
    [/allowed-evil/x] is outside it on path segments, and [validatePath]
    returns it: the check is a prefix test on the text of the path. *)
Theorem C1_sibling_of_root_is_accepted :
  allowedDirectories Examples.proc = ["/allowed"]
  ∧ containedInRoot "/allowed" "/allowed-evil/x" = false
  ∧ validatePath Examples.proc Examples.siblingFs "/allowed-evil/x"
    = Ok "/allowed-evil/x".
Proof. repeat split; vm_compute; reflexivity. Qed.

(** C2. [/allowed/link] lies inside the allowed directory and is a link to
    [/etc/passwd], outside it; the error thrown for the escaping target
    is caught by the handler for missing files, the parent [/allowed]
    passes, and [validatePath] returns the path of the link. *)
Theorem C2_escaping_symlink_is_accepted :
  containedInRoot "/allowed" "/allowed/link" = true
  ∧ fs_realpath Examples.fileLinkFs "/allowed/link" = Ok "/etc/passwd"
  ∧ startsWithRoot Examples.proc (normalizePath "/etc/passwd") = false
  ∧ containedInRoot "/allowed" "/etc/passwd" = false
  ∧ validatePath Examples.proc Examples.fileLinkFs "/allowed/link"
    = Ok "/allowed/link".
Proof. repeat split; vm_compute; reflexivity. Qed.

(** C4. [/allowed/link/new.txt] does not exist and its parent is a link
    to the existing directory [/outside]; the access-denied error for the
    parent is caught by the inner handler and [validatePath] reports a
    missing parent. *)
Theorem C4_outside_parent_is_reported_missing :
  fs_realpath Examples.dirLinkFs (dirname "/allowed/link/new.txt") = Ok "/outside"
  ∧ startsWithRoot Examples.proc (normalizePath "/outside") = false
  ∧ validatePath Examples.proc Examples.dirLinkFs "/allowed/link/new.txt"
    = throw "Parent directory does not exist: /allowed/link"
  ∧ errorKind (mkError "Parent directory does not exist: /allowed/link")
    = ParentMissing.
Proof. repeat split; vm_compute; reflexivity. Qed.

(** ** Patch engine: matching *)

Lemma lookup_arraySlice {A} (l : list A) (i n j : nat) :
  (j < n)%nat → Js.arraySlice l i (i + n) !! j = l !! (i + j)%nat.
Proof.
  intros Hj. unfold Js.arraySlice. replace (i + n - i)%nat with n by lia.
  by rewrite lookup_take_lt, lookup_drop.
Qed.

(** The test of the loop is the window match of the specification. *)
Lemma isMatch_windowMatches (oldLines contentLines : list string) (i : nat) :
  isMatch oldLines (Js.arraySlice contentLines i (i + length oldLines)) = true
  ↔ windowMatches oldLines contentLines i.
Proof.
  unfold isMatch, Js.mapi, windowMatches. rewrite forallb_imap. split.
  - intros Hall j oldLine Hj. specialize (Hall j oldLine Hj).
    rewrite lookup_arraySlice in Hall by (by apply lookup_lt_Some in Hj).
    destruct (contentLines !! (i + j)%nat) as [contentLine|]; [|done].
    exists contentLine. split; [done | by apply String.eqb_eq].
  - intros Hwin j oldLine Hj. destruct (Hwin j oldLine Hj) as (contentLine & Hc & Heq).
    rewrite lookup_arraySlice by (by apply lookup_lt_Some in Hj).
    rewrite Hc. by apply String.eqb_eq.
Qed.

(** A matching window lies inside the content. *)
Lemma windowMatches_in_range (oldLines contentLines : list string) (i : nat) :
  oldLines ≠ [] → windowMatches oldLines contentLines i →
  (i + length oldLines ≤ length contentLines)%nat.
Proof.
  intros Hne Hwin.
  destruct (lookup_lt_is_Some_2 oldLines (length oldLines - 1)) as [oldLine Hlast].
  { destruct oldLines; [done | simpl; lia]. }
  destruct (Hwin _ _ Hlast) as (contentLine & Hc & _).
  apply lookup_lt_Some in Hc. apply lookup_lt_Some in Hlast. lia.
Qed.

Lemma windowStarts_lt (oldLines contentLines : list string) (k : nat) :
  (k < windowStarts oldLines contentLines)%nat
  ↔ (k + length oldLines ≤ length contentLines)%nat.
Proof. unfold windowStarts. lia. Qed.

Lemma fuzzyLoop_None (oldLines contentLines : list string) (normalizedNew : string)
    (i iterations : nat) :
  fuzzyLoop oldLines contentLines normalizedNew i iterations = None
  ↔ ∀ k, (i ≤ k < i + iterations)%nat → ¬ windowMatches oldLines contentLines k.
Proof.
  revert i. induction iterations as [|n IH]; intros i; simpl.
  - split; [intros _ k Hk; lia | done].
  - destruct (isMatch _ _) eqn:Hm.
    + split; [done|]. intros Hall. exfalso. apply (Hall i); [lia|].
      by apply isMatch_windowMatches.
    + rewrite IH. split.
      * intros Hall k Hk. destruct (decide (k = i)) as [->|Hne].
        -- rewrite <- isMatch_windowMatches. by rewrite Hm.
        -- apply Hall. lia.
      * intros Hall k Hk. apply Hall. lia.
Qed.

Lemma fuzzyLoop_first (oldLines contentLines : list string) (normalizedNew : string)
    (i iterations k : nat) :
  (i ≤ k < i + iterations)%nat →
  windowMatches oldLines contentLines k →
  (∀ k', (i ≤ k' < k)%nat → ¬ windowMatches oldLines contentLines k') →
  fuzzyLoop oldLines contentLines normalizedNew i iterations
  = Some (fuzzyReplace oldLines contentLines normalizedNew k).
Proof.
  revert i. induction iterations as [|n IH]; intros i Hk Hwin Hfirst; [lia|].
  simpl. destruct (isMatch _ _) eqn:Hm.
  - apply isMatch_windowMatches in Hm.
    destruct (decide (k = i)) as [->|Hne]; [done|].
    exfalso. apply (Hfirst i); [lia | done].
  - destruct (decide (k = i)) as [->|Hne].
    + apply isMatch_windowMatches in Hwin. congruence.
    + apply IH; [lia | done |]. intros k' Hk'. apply Hfirst. lia.
Qed.

(** An edit fails exactly when it matches neither way, and the error
    carries its [oldText]. *)
Lemma applyEdit_Throw (content : string) (edit : Edit) (e : JsError) :
  applyEdit content edit = Throw e
  ↔ ¬ matchesExactly content edit ∧ ¬ matchesFuzzily content edit
    ∧ e = editNotFound edit.
Proof.
  unfold applyEdit, matchesExactly, matchesFuzzily. cbv zeta.
  set (oldLines := Js.split newline (normalizeLineEndings (oldText edit))).
  set (contentLines := Js.split newline content).
  destruct (Js.includes content _) eqn:Hinc.
  - split; [done | by intros [Hno _]].
  - destruct (fuzzyLoop _ _ _ _ _) as [c|] eqn:Hloop.
    + split; [done|]. intros (_ & Hno & _). exfalso.
      assert (fuzzyLoop oldLines contentLines
                (normalizeLineEndings (newText edit)) 0
                (windowStarts oldLines contentLines) = None) as Hnone; [|congruence].
      apply fuzzyLoop_None. intros k _ Hwin. apply Hno. by exists k.
    + split.
      * intros [= <-]. split; [congruence|]. split; [|done].
        intros [k Hwin]. rewrite fuzzyLoop_None in Hloop. apply (Hloop k); [|done].
        split; [lia|]. simpl. apply windowStarts_lt.
        apply windowMatches_in_range; [apply split_nonempty | done].
      * by intros (_ & _ & ->).
Qed.

Lemma applyEdits_app (content : string) (done rest : list Edit) :
  applyEdits content (done ++ rest)
  = (current ← applyEdits content done; applyEdits current rest).
Proof.
  revert content. induction done as [|edit done IH]; intros content; simpl; [done|].
  destruct (applyEdit content edit) as [c|e]; simpl; [apply IH | done].
Qed.

(** The edits are applied in order, each to the output of the one before;
    the first that fails ends the loop with its error. *)
Lemma applyEdits_Throw (content : string) (edits : list Edit) (e : JsError) :
  applyEdits content edits = Throw e
  ↔ ∃ done edit rest current,
      edits = (done ++ edit :: rest)%list
      ∧ applyEdits content done = Ok current
      ∧ applyEdit current edit = Throw e.
Proof.
  split.
  - revert content. induction edits as [|edit edits IH]; intros content; simpl; [done|].
    destruct (applyEdit content edit) as [c|e'] eqn:Hedit; simpl.
    + intros Hrest. destruct (IH c Hrest) as (done & edit' & rest & current & -> & Hdone & Hfail).
      exists (edit :: done), edit', rest, current. simpl. rewrite Hedit. by simpl.
    + intros [= ->]. by exists [], edit, edits, content.
  - intros (done & edit & rest & current & -> & Hdone & Hfail).
    rewrite applyEdits_app, Hdone. simpl. by rewrite Hfail.
Qed.

(** The leading white space and the rest of a line, as [match(/^\s*/)] and
    [trimStart] give them, are its indentation and its body. *)
Lemma indentedAs_leading (line : string) :
  indentedAs line (Js.leadingWhitespace line) (Js.trimStart line).
Proof.
  unfold indentedAs. induction line as [|c line (Hline & Hindent & Hbody)]; [done|].
  simpl. destruct (Js.isWhiteSpace c) eqn:Hc.
  - split; [by rewrite append_cons, <- Hline|]. split; [by constructor | done].
  - split; [done|]. split; [by constructor | done].
Qed.

(** A line has one indentation and one body. *)
Lemma indentedAs_unique (line indent body : string) :
  indentedAs line indent body →
  indent = Js.leadingWhitespace line ∧ body = Js.trimStart line.
Proof.
  unfold indentedAs. revert line.
  induction indent as [|c indent IH]; intros line (-> & Hindent & Hbody).
  - change (EmptyString +:+ body) with body.
    destruct body as [|b body]; [done|]. simpl. by rewrite Hbody.
  - rewrite append_cons. inversion Hindent as [|? ? Hc Hrest]; subst.
    simpl. rewrite Hc.
    destruct (IH (indent +:+ body)) as [<- <-]; done.
Qed.

(** C6. When [oldText] does not occur verbatim, the window replaced is the
    one at the lowest start whose lines equal those of [oldText] after
    trimming, and the first replacement line is the indentation of the
    first matched line, its leading white space, followed by the first line
    of [newText] without its own leading white space; the lines around the
    window stay. Through the window branch, the line [return x;] behind two
    spaces, matched by an [oldText] with other white space around it,
    becomes [return y;] behind the same two spaces, alone or inside a
    file; and on the content line with two spaces before [return x;], the
    edit of [return x;] into [return y;] gives the line with its two
    spaces kept. *)
Theorem C6_fuzzy_replaces_first_window :
  (∀ (content : string) (edit : Edit) (i : nat),
     let oldLines := Js.split newline (normalizeLineEndings (oldText edit)) in
     let contentLines := Js.split newline content in
     ¬ matchesExactly content edit →
     windowMatches oldLines contentLines i →
     (∀ k, (k < i)%nat → ¬ windowMatches oldLines contentLines k) →
     ∃ matchedLine indent matchedBody newFirst newIndent newBody newRest replacementRest,
       contentLines !! i = Some matchedLine
       ∧ indentedAs matchedLine indent matchedBody
       ∧ Js.split newline (normalizeLineEndings (newText edit)) = newFirst :: newRest
       ∧ indentedAs newFirst newIndent newBody
       ∧ length replacementRest = length newRest
       ∧ applyEdit content edit
         = Ok (Js.join LF
                 (take i contentLines
                  ++ ((indent +:+ newBody) :: replacementRest)
                  ++ drop (i + length oldLines) contentLines)%list))
  ∧ (¬ matchesExactly "  return x;" {| oldText := "    return x;"; newText := "    return y;" |}
     ∧ applyEdit "  return x;" {| oldText := "    return x;"; newText := "    return y;" |}
       = Ok "  return y;")
  ∧ (¬ matchesExactly "  return x;" {| oldText := "return x; "; newText := "return y;" |}
     ∧ applyEdit "  return x;" {| oldText := "return x; "; newText := "return y;" |}
       = Ok "  return y;")
  ∧ (¬ matchesExactly Examples.sourceText
         {| oldText := "return x; "; newText := "return y;" |}
     ∧ applyEdit Examples.sourceText {| oldText := "return x; "; newText := "return y;" |}
       = Ok ("function f() {" +:+ LF +:+ "  return y;" +:+ LF +:+ "}"))
  ∧ applyEdit "  return x;" {| oldText := "return x;"; newText := "return y;" |}
    = Ok "  return y;".
Proof.
  split; [|repeat split; try reflexivity; unfold matchesExactly; vm_compute; discriminate].
  intros content edit i oldLines contentLines Hexact Hwin Hfirst.
  assert (i + length oldLines ≤ length contentLines)%nat as Hrange.
  { apply windowMatches_in_range; [apply split_nonempty | done]. }
  assert (oldLines ≠ []) as Hold by apply split_nonempty.
  destruct (lookup_lt_is_Some_2 contentLines i) as [matchedLine Hline].
  { destruct oldLines; [done | simpl in Hrange; lia]. }
  destruct (Js.split newline (normalizeLineEndings (newText edit)))
    as [|newFirst newRest] eqn:Hnew; [by apply split_nonempty in Hnew|].
  exists matchedLine, (Js.leadingWhitespace matchedLine), (Js.trimStart matchedLine),
    newFirst, (Js.leadingWhitespace newFirst), (Js.trimStart newFirst), newRest,
    (imap ((λ j line, reindent (Js.leadingWhitespace matchedLine) oldLines line j) ∘ S)
       newRest).
  split; [done|]. split; [apply indentedAs_leading|]. split; [done|].
  split; [apply indentedAs_leading|]. split; [by rewrite length_imap|].
  unfold applyEdit, matchesExactly in *. cbv zeta.
  destruct (Js.includes content _); [done|].
  fold oldLines contentLines.
  rewrite (fuzzyLoop_first _ _ _ 0 _ i); [| | done |].
  - unfold fuzzyReplace, Js.splice, Js.mapi. cbv zeta. rewrite Hline, Hnew.
    by rewrite imap_cons.
  - split; [lia|]. simpl. by apply windowStarts_lt.
  - intros k' Hk'. apply Hfirst. lia.
Qed.

(** C6, on a file whose second line is indented by two spaces, with an
    [oldText] that differs from that line by white space only: the line
    put in its place keeps the two spaces. *)
Lemma C6_fuzzy_witness :
  applyEdit Examples.sourceText {| oldText := "return x; "; newText := "return y;" |}
  = Ok ("function f() {" +:+ LF +:+ "  return y;" +:+ LF +:+ "}").
Proof.
  destruct (proj1 C6_fuzzy_replaces_first_window Examples.sourceText
              {| oldText := "return x; "; newText := "return y;" |} 1%nat)
    as (matchedLine & indent & matchedBody & newFirst & newIndent & newBody & newRest
        & replacementRest & Hline & Hindent & Hnew & Hnewindent & Hlen & Hrun).
  - unfold matchesExactly. vm_compute. discriminate.
  - apply isMatch_windowMatches. reflexivity.
  - intros k Hk. assert (k = 0%nat) as -> by lia.
    rewrite <- isMatch_windowMatches. vm_compute. discriminate.
  - injection Hline as <-. injection Hnew as <- <-.
    apply indentedAs_unique in Hindent as [-> _].
    apply indentedAs_unique in Hnewindent as [_ ->].
    destruct replacementRest; [|discriminate Hlen].
    rewrite Hrun. reflexivity.
Defined.

(** ** Patch engine: the file *)

Section PatchEngineProperties.
Variable createTwoFilesPatch : string → string → string → string → string → string → string.

(** A run on a readable file: the edits decide the outcome, and the
    file is written only on success without [dryRun]. *)
Lemma applyFileEdits_readable (fs : FileSystem) (filePath raw : string)
    (edits : list Edit) (dryRun : bool) :
  files fs !! filePath = Some raw →
  applyFileEdits createTwoFilesPatch filePath edits dryRun fs =
    match applyEdits (normalizeLineEndings raw) edits with
    | Ok final =>
        (Ok (renderedDiff createTwoFilesPatch (normalizeLineEndings raw) final filePath),
         if dryRun then fs else written fs filePath final)
    | Throw e => (Throw e, fs)
    end.
Proof.
  intros Hraw. unfold applyFileEdits, mbind, M_bind, fs_readFile, lift.
  rewrite Hraw. destruct (applyEdits _ edits) as [final|e]; [|done].
  by destruct dryRun.
Qed.

Lemma applyFileEdits_unreadable (fs : FileSystem) (filePath : string)
    (edits : list Edit) (dryRun : bool) :
  files fs !! filePath = None →
  applyFileEdits createTwoFilesPatch filePath edits dryRun fs
  = (throw ("ENOENT: no such file or directory, open '" +:+ filePath +:+ "'"), fs).
Proof.
  intros Hraw. unfold applyFileEdits, mbind, M_bind, fs_readFile.
  by rewrite Hraw.
Qed.

Lemma formatDiff_nonempty (diff : string) : formatDiff diff ≠ EmptyString.
Proof.
  unfold formatDiff. cbv zeta. intros Hempty.
  apply (f_equal String.length) in Hempty.
  rewrite !app_length_str in Hempty. simpl in Hempty. lia.
Qed.

(** C7. [applyFileEdits] throws an edit-not-found error exactly when the
    file was read and some edit, met after the edits before it were
    applied, matches the content of that moment neither exactly nor through
    a window; the error carries the [oldText] of that edit. When that edit
    is the first of the list the file system is left as it was. *)
Theorem C7_edit_not_found_iff (fs : FileSystem) (filePath : string)
    (edits : list Edit) (dryRun : bool) :
  (∀ e, ((applyFileEdits createTwoFilesPatch filePath edits dryRun fs).1 = Throw e
         ∧ errorKind e = EditNotFound)
        ↔ ∃ raw done edit rest current,
            files fs !! filePath = Some raw
            ∧ edits = (done ++ edit :: rest)%list
            ∧ applyEdits (normalizeLineEndings raw) done = Ok current
            ∧ ¬ matchesExactly current edit
            ∧ ¬ matchesFuzzily current edit
            ∧ e = editNotFound edit)
  ∧ (∀ raw edit rest,
       files fs !! filePath = Some raw →
       edits = edit :: rest →
       ¬ matchesExactly (normalizeLineEndings raw) edit →
       ¬ matchesFuzzily (normalizeLineEndings raw) edit →
       applyFileEdits createTwoFilesPatch filePath edits dryRun fs
       = (Throw (editNotFound edit), fs)).
Proof.
  split.
  - intros e. split.
    + intros [Hthrow Hkind].
      destruct (files fs !! filePath) as [raw|] eqn:Hraw.
      * rewrite (applyFileEdits_readable _ _ _ _ _ Hraw) in Hthrow.
        destruct (applyEdits _ edits) as [final|e'] eqn:Hrun; simpl in Hthrow; [done|].
        injection Hthrow as ->. apply applyEdits_Throw in Hrun.
        destruct Hrun as (done & edit & rest & current & -> & Hdone & Hfail).
        apply applyEdit_Throw in Hfail. by exists raw, done, edit, rest, current.
      * rewrite applyFileEdits_unreadable in Hthrow by done.
        injection Hthrow as <-. by vm_compute in Hkind.
    + intros (raw & done & edit & rest & current & Hraw & -> & Hdone & Hexact & Hfuzzy & ->).
      rewrite (applyFileEdits_readable _ _ _ _ _ Hraw).
      assert (applyEdits (normalizeLineEndings raw) (done ++ edit :: rest)
              = Throw (editNotFound edit)) as ->; [|done].
      apply applyEdits_Throw. exists done, edit, rest, current.
      split; [done|]. split; [done|]. by apply applyEdit_Throw.
  - intros raw edit rest Hraw -> Hexact Hfuzzy.
    rewrite (applyFileEdits_readable _ _ _ _ _ Hraw). simpl.
    assert (applyEdit (normalizeLineEndings raw) edit = Throw (editNotFound edit)) as ->;
      [by apply applyEdit_Throw | done].
Qed.

(** C8. With [dryRun] the file system after the call is the one before
    it, whatever the outcome. When the edits apply, the call returns the
    rendered diff, which is not empty, and the final content is stored
    exactly when [dryRun] is false. *)
Theorem C8_dry_run_leaves_storage (fs : FileSystem) (filePath : string)
    (edits : list Edit) :
  (applyFileEdits createTwoFilesPatch filePath edits true fs).2 = fs
  ∧ (∀ raw final,
       files fs !! filePath = Some raw →
       applyEdits (normalizeLineEndings raw) edits = Ok final →
       applyFileEdits createTwoFilesPatch filePath edits true fs
       = (Ok (renderedDiff createTwoFilesPatch (normalizeLineEndings raw) final filePath), fs)
       ∧ renderedDiff createTwoFilesPatch (normalizeLineEndings raw) final filePath ≠ EmptyString
       ∧ applyFileEdits createTwoFilesPatch filePath edits false fs
         = (Ok (renderedDiff createTwoFilesPatch (normalizeLineEndings raw) final filePath),
            written fs filePath final)).
Proof.
  split.
  - destruct (files fs !! filePath) as [raw|] eqn:Hraw.
    + rewrite (applyFileEdits_readable _ _ _ _ _ Hraw).
      by destruct (applyEdits _ edits).
    + by rewrite applyFileEdits_unreadable.
  - intros raw final Hraw Hfinal.
    rewrite !(applyFileEdits_readable _ _ _ _ _ Hraw), Hfinal.
    split; [done|]. split; [apply formatDiff_nonempty | done].
Qed.

(** C10. A call that throws leaves the file system as it was, wherever
    in the list the failing edit stands; and the file system changes
    only when the file was read, every edit applied and [dryRun] is
    false, the change being the one write of the final content. *)
Theorem C10_failure_leaves_disk (fs fs' : FileSystem) (filePath : string)
    (edits : list Edit) (dryRun : bool) (r : result string) :
  applyFileEdits createTwoFilesPatch filePath edits dryRun fs = (r, fs') →
  (∀ e, r = Throw e → fs' = fs)
  ∧ (fs' ≠ fs →
     ∃ raw final,
       files fs !! filePath = Some raw
       ∧ applyEdits (normalizeLineEndings raw) edits = Ok final
       ∧ dryRun = false
       ∧ fs' = written fs filePath final).
Proof.
  destruct (files fs !! filePath) as [raw|] eqn:Hraw.
  - rewrite (applyFileEdits_readable _ _ _ _ _ Hraw).
    destruct (applyEdits _ edits) as [final|e'] eqn:Hrun.
    + intros [= <- <-]. split; [done|]. intros Hchanged.
      exists raw, final. by destruct dryRun.
    + intros [= <- <-]. by split.
  - rewrite applyFileEdits_unreadable by done. intros [= <- <-]. by split.
Qed.

End PatchEngineProperties.

(** No window matches when the loop over all starts finds none. *)
Lemma fuzzyLoop_None_not_fuzzy (content : string) (edit : Edit) (normalizedNew : string) :
  let oldLines := Js.split newline (normalizeLineEndings (oldText edit)) in
  let contentLines := Js.split newline content in
  fuzzyLoop oldLines contentLines normalizedNew 0 (windowStarts oldLines contentLines) = None →
  ¬ matchesFuzzily content edit.
Proof.
  intros oldLines contentLines Hloop [k Hwin]. rewrite fuzzyLoop_None in Hloop.
  apply (Hloop k); [|done]. split; [lia|]. simpl. apply windowStarts_lt.
  apply windowMatches_in_range; [apply split_nonempty | done].
Qed.

(** C7, on a file that holds no line [return z;]. *)
Lemma C7_edit_not_found_witness :
  applyFileEdits Examples.wholeFilePatch "/allowed/f.js" [Examples.returnZ] false
    Examples.sourceFs
  = (Throw (editNotFound Examples.returnZ), Examples.sourceFs).
Proof.
  apply (proj2 (C7_edit_not_found_iff Examples.wholeFilePatch Examples.sourceFs
                  "/allowed/f.js" [Examples.returnZ] false)
           Examples.sourceText Examples.returnZ []).
  - reflexivity.
  - reflexivity.
  - unfold matchesExactly. vm_compute. discriminate.
  - apply (fuzzyLoop_None_not_fuzzy _ _ EmptyString). reflexivity.
Defined.

(** C8, on the edit of [return x;] into [return y;]. *)
Lemma C8_dry_run_witness :
  let final := "function f() {" +:+ LF +:+ "  return y;" +:+ LF +:+ "}" in
  let diff := renderedDiff Examples.wholeFilePatch Examples.sourceText final "/allowed/f.js" in
  applyFileEdits Examples.wholeFilePatch "/allowed/f.js" [Examples.returnY] true
    Examples.sourceFs
  = (Ok diff, Examples.sourceFs)
  ∧ diff ≠ EmptyString
  ∧ applyFileEdits Examples.wholeFilePatch "/allowed/f.js" [Examples.returnY] false
      Examples.sourceFs
    = (Ok diff, written Examples.sourceFs "/allowed/f.js" final).
Proof.
  exact (proj2 (C8_dry_run_leaves_storage Examples.wholeFilePatch Examples.sourceFs
                  "/allowed/f.js" [Examples.returnY])
           Examples.sourceText _ eq_refl eq_refl).
Defined.

(** C10, on a list whose first edit applies and whose second does not. *)
Lemma C10_failure_witness :
  applyFileEdits Examples.wholeFilePatch "/allowed/f.js"
    [Examples.returnY; Examples.returnZ] false Examples.sourceFs
  = (Throw (editNotFound Examples.returnZ), Examples.sourceFs)
  ∧ ∀ e, Throw (A := string) (editNotFound Examples.returnZ) = Throw e →
         Examples.sourceFs = Examples.sourceFs.
Proof.
  split; [vm_compute; reflexivity|].
  apply (C10_failure_leaves_disk Examples.wholeFilePatch Examples.sourceFs
           Examples.sourceFs "/allowed/f.js" [Examples.returnY; Examples.returnZ] false).
  vm_compute; reflexivity.
Defined.

(** ** Patch engine: exact replacement *)

Lemma getSubstitution_other (matched before after rest : string) (c : ascii) :
  c ≠ "$"%char →
  Js.getSubstitution matched before after (String c rest)
  = String c (Js.getSubstitution matched before after rest).
Proof.
  intros Hc.
  destruct c as [[] [] [] [] [] [] [] []]; try reflexivity. by destruct Hc.
Qed.

Lemma includes_cons_false (c : ascii) (s sub : string) :
  Js.includes (String c s) sub = false →
  Js.startsWith (String c s) sub = false ∧ Js.includes s sub = false.
Proof.
  unfold Js.includes. rewrite (indexOf_unfold (String c s)).
  destruct (Js.startsWith (String c s) sub); [done|].
  by destruct (Js.indexOf s sub).
Qed.

(** A replacement text without a dollar sign stands for itself. *)
Lemma getSubstitution_literal (matched before after template : string) :
  Js.includes template "$" = false →
  Js.getSubstitution matched before after template = template.
Proof.
  induction template as [|c rest IH]; [done|].
  intros Hinc. apply includes_cons_false in Hinc as [Hhead Hrest].
  rewrite getSubstitution_other.
  - by rewrite IH.
  - intros ->. by destruct rest.
Qed.

Lemma startsWith_split (s p : string) :
  Js.startsWith s p = true → s = p +:+ Js.sliceFrom (String.length p) s.
Proof.
  unfold Js.startsWith. revert s.
  induction p as [|a p IH]; intros [|b s]; simpl; try done.
  destruct (ascii_dec a b) as [->|]; [|done]. intros Hp.
  rewrite append_cons. f_equal. by apply IH.
Qed.

(** [indexOf] finds an occurrence, and no occurrence starts before it. *)
Lemma indexOf_occurs (s sub : string) (pos : nat) :
  Js.indexOf s sub = Some pos →
  s = Js.sliceTo pos s +:+ sub +:+ Js.sliceFrom (pos + String.length sub) s
  ∧ String.length (Js.sliceTo pos s) = pos
  ∧ ∀ k, (k < pos)%nat → Js.startsWith (Js.sliceFrom k s) sub = false.
Proof.
  revert pos. induction s as [|c s IH]; intros pos; rewrite indexOf_unfold.
  - destruct (Js.startsWith EmptyString sub) eqn:Hp; [|done]. intros [= <-].
    split; [by apply startsWith_split | split; [done | intros k Hk; lia]].
  - destruct (Js.startsWith (String c s) sub) eqn:Hp.
    + intros [= <-]. split; [by apply startsWith_split | split; [done | intros k Hk; lia]].
    + destruct (Js.indexOf s sub) as [n|]; simpl; [|done]. intros [= <-].
      destruct (IH n eq_refl) as (Hsplit & Hlen & Hfirst).
      split; [simpl; rewrite append_cons; by rewrite <- Hsplit|].
      split; [simpl; by rewrite Hlen|].
      intros [|k] Hk; simpl; [done | apply Hfirst; lia].
Qed.

(** When the new text holds no dollar sign, the exact branch replaces the
    first occurrence of the old text by the new text and leaves the rest
    of the content as it was. *)
Lemma replace_first_occurrence (s old new : string) (pos : nat) :
  Js.includes new "$" = false →
  Js.indexOf s old = Some pos →
  Js.replace s old new
  = Js.sliceTo pos s +:+ new +:+ Js.sliceFrom (pos + String.length old) s.
Proof.
  intros Hnew Hpos. unfold Js.replace. rewrite Hpos.
  by rewrite getSubstitution_literal.
Qed.

(** C5. The edits are applied in order, but the exact branch does not
    insert [newText] itself: [String.prototype.replace] reads [$$], [$&],
    [$`] and [$'] in it as patterns. On the line [echo TOTAL], replacing
    [TOTAL] by two dollar signs stores one. *)
Theorem C5_dollar_patterns_are_expanded :
  matchesExactly "echo TOTAL" Examples.processId
  ∧ applyEdits "echo TOTAL" [Examples.processId] = Ok "echo $"
  ∧ "echo " +:+ normalizeLineEndings (newText Examples.processId) = "echo $$"
  ∧ applyEdits "a b" [ {| oldText := "b"; newText := "[$&$`$']" |} ] = Ok "a [ba ]".
Proof. repeat split. Qed.

(** ** Search *)

(** C9. An exclude pattern without [*] is expanded to [**/pattern/**] and
    tested against the path of the entry relative to the search root. An
    entry that matches is skipped: nothing is added for it and the nested
    call is not made, whatever it would return, so the whole subtree is
    left out. Over [/root] with [build/foo.txt] and [src/foo.txt], for any
    matcher that agrees with [minimatch] on the three paths below and any
    bound of at least three levels, searching for [foo] while excluding
    [build] returns [/root/src/foo.txt] alone. *)
Theorem C9_exclude_prunes_subtree :
  (∀ pattern, Js.includes pattern "*" = false →
     globPattern pattern = "**/" +:+ pattern +:+ "/**")
  ∧ (∀ (P : PathModule) proc minimatch recur fs rootPath pattern excludePatterns
       currentPath entry results,
       shouldExclude minimatch excludePatterns
         (relative (cwd proc) rootPath (join [currentPath; name entry])) = true →
       visit proc minimatch recur fs rootPath pattern excludePatterns
         currentPath entry results = Some results)
  ∧ (∀ (minimatch : string → string → bool) (depth : nat),
       minimatch "build/foo.txt" "**/build/**" = true →
       minimatch "src" "**/build/**" = false →
       minimatch "src/foo.txt" "**/build/**" = false →
       searchFiles Examples.searchProc minimatch Examples.treeFs (3 + depth)
         "/root" "foo" ["build"]
       = Some (Ok ["/root/src/foo.txt"])).
Proof.
  split; [|split].
  - intros pattern Hstar. unfold globPattern. by rewrite Hstar.
  - intros P proc minimatch recur fs rootPath pattern excludePatterns
      currentPath entry results Hexcluded.
    unfold visit. cbv zeta. rewrite Hexcluded.
    by destruct (validatePath proc fs _).
  - intros minimatch depth Hbuilt Hsrc Hsource.
    vm_compute. rewrite Hbuilt, Hsrc, Hsource.
    by destruct (minimatch "build" "**/build/**").
Qed.

(** C9, with the segment-wise matcher and three levels. *)
Lemma C9_exclude_witness :
  searchFiles Examples.searchProc Glob.minimatch Examples.treeFs 3
    "/root" "foo" ["build"]
  = Some (Ok ["/root/src/foo.txt"]).
Proof.
  exact (proj2 (proj2 C9_exclude_prunes_subtree) Glob.minimatch 0%nat
           eq_refl eq_refl eq_refl).
Defined.

(** * Further properties of the code *)

(** ** Path guard *)

Lemma accessDenied_kind (absolute roots : string) :
  errorKind (mkError ("Access denied - path outside allowed directories: "
                      +:+ absolute +:+ " not in " +:+ roots)) = AccessDenied.
Proof. reflexivity. Qed.

Section PathGuardExtras.
Context `{PathModule} (proc : Process).

(** X1. [validatePath] throws errors of two kinds only, and the kind
    tells which check refused the path: access denied when the normalized
    absolute path starts with no allowed directory, missing parent in
    every other case. *)
Theorem X1_validatePath_error_kinds (fs : FileSystem) (requestedPath : string)
    (e : JsError) :
  validatePath proc fs requestedPath = Throw e →
  let literal := startsWithRoot proc (normalizePath (absolutePath proc requestedPath)) in
  (literal = false ∧ errorKind e = AccessDenied)
  ∨ (literal = true ∧ errorKind e = ParentMissing).
Proof.
  rewrite validatePath_cases. cbv zeta.
  destruct (startsWithRoot proc _) eqn:Hlit.
  - intros Hthrow. right. split; [done|].
    destruct (realpaths fs !! _) as [realPath|].
    + destruct (startsWithRoot proc (normalizePath realPath)); [done|].
      by apply parentCheck_kind in Hthrow.
    + by apply parentCheck_kind in Hthrow.
  - intros [= <-]. left. split; [done | apply accessDenied_kind].
Qed.

(** X2. Whatever [validatePath] returns passed the first check, and is
    either the real path of the requested path, itself under an allowed
    directory, or the absolute requested path, whose parent directory has
    a real path under an allowed directory. *)
Theorem X2_validated_path_origin (fs : FileSystem) (requestedPath valid : string) :
  validatePath proc fs requestedPath = Ok valid →
  let absolute := absolutePath proc requestedPath in
  startsWithRoot proc (normalizePath absolute) = true
  ∧ ((realpaths fs !! absolute = Some valid
      ∧ startsWithRoot proc (normalizePath valid) = true)
     ∨ (valid = absolute
        ∧ ∃ realParent,
            realpaths fs !! dirname absolute = Some realParent
            ∧ startsWithRoot proc (normalizePath realParent) = true)).
Proof.
  rewrite validatePath_cases. cbv zeta.
  destruct (startsWithRoot proc _) eqn:Hlit; [|done].
  assert (∀ v, parentCheck proc fs (absolutePath proc requestedPath) = Ok v →
               v = absolutePath proc requestedPath
               ∧ ∃ realParent,
                   realpaths fs !! dirname (absolutePath proc requestedPath)
                   = Some realParent
                   ∧ startsWithRoot proc (normalizePath realParent) = true) as Hparent.
  { intros v. unfold parentCheck.
    destruct (realpaths fs !! dirname _) as [realParent|]; [|done].
    destruct (startsWithRoot proc (normalizePath realParent)) eqn:Hin; [|done].
    intros [= <-]. split; [done|]. by exists realParent. }
  destruct (realpaths fs !! absolutePath proc requestedPath) as [realPath|] eqn:Hreal.
  - destruct (startsWithRoot proc (normalizePath realPath)) eqn:Hin.
    + intros [= <-]. split; [done|]. by left.
    + intros Hv. split; [done|]. right. by apply Hparent.
  - intros Hv. split; [done|]. right. by apply Hparent.
Qed.

(** X3. For a path that exists, passes the first check and has its real
    path under an allowed directory, [validatePath] returns the real path,
    with symbolic links followed, and not the path as requested. *)
Theorem X3_existing_target_resolved (fs : FileSystem) (requestedPath realPath : string) :
  startsWithRoot proc (normalizePath (absolutePath proc requestedPath)) = true →
  realpaths fs !! absolutePath proc requestedPath = Some realPath →
  startsWithRoot proc (normalizePath realPath) = true →
  validatePath proc fs requestedPath = Ok realPath.
Proof.
  intros Hlit Hreal Hin. rewrite validatePath_cases. cbv zeta.
  by rewrite Hlit, Hreal, Hin.
Qed.

End PathGuardExtras.

(** X1, on a path next to no allowed directory. *)
Lemma X1_error_kinds_witness :
  (false = false ∧ errorKind (mkError
     "Access denied - path outside allowed directories: /etc/passwd not in /allowed")
     = AccessDenied)
  ∨ (false = true ∧ errorKind (mkError
     "Access denied - path outside allowed directories: /etc/passwd not in /allowed")
     = ParentMissing).
Proof.
  exact (X1_validatePath_error_kinds Examples.proc Examples.emptyRootFs "/etc/passwd"
           _ eq_refl).
Defined.

(** X2, on a link that stays inside the allowed directory. *)
Lemma X2_origin_witness :
  startsWithRoot Examples.proc (normalizePath "/allowed/link") = true
  ∧ ((realpaths ToolExamples.innerLinkFs !! "/allowed/link" = Some "/allowed/data.txt"
      ∧ startsWithRoot Examples.proc (normalizePath "/allowed/data.txt") = true)
     ∨ ("/allowed/data.txt" = "/allowed/link"
        ∧ ∃ realParent,
            realpaths ToolExamples.innerLinkFs !! dirname "/allowed/link" = Some realParent
            ∧ startsWithRoot Examples.proc (normalizePath realParent) = true)).
Proof.
  exact (X2_validated_path_origin Examples.proc ToolExamples.innerLinkFs
           "/allowed/link" "/allowed/data.txt" eq_refl).
Defined.

(** X3, on the same link. *)
Lemma X3_resolved_witness :
  validatePath Examples.proc ToolExamples.innerLinkFs "/allowed/link"
  = Ok "/allowed/data.txt".
Proof.
  exact (X3_existing_target_resolved Examples.proc ToolExamples.innerLinkFs
           "/allowed/link" "/allowed/data.txt" eq_refl eq_refl eq_refl).
Defined.


(** ** Patch engine *)

Lemma fenceLoop_ge (diff : string) (rounds n : nat) :
  (n ≤ fenceLoop diff n rounds)%nat.
Proof.
  revert n. induction rounds as [|rounds IH]; intros n; simpl; [done|].
  destruct (Js.includes diff (Js.repeat "`" n)); [|done].
  specialize (IH (S n)). lia.
Qed.

Lemma fenceLoop_below (diff : string) (rounds n m : nat) :
  (n ≤ m < fenceLoop diff n rounds)%nat →
  Js.includes diff (Js.repeat "`" m) = true.
Proof.
  revert n. induction rounds as [|rounds IH]; intros n; simpl; [lia|].
  destruct (Js.includes diff (Js.repeat "`" n)) eqn:Hinc; [|lia].
  intros Hm. destruct (decide (m = n)) as [->|Hne]; [done|].
  apply (IH (S n)). lia.
Qed.

(** X5. The diff is returned between two fences of the same number of
    backticks, at least three; that run of backticks does not occur in
    the diff, and every shorter run of three or more does. *)
Theorem X5_fence_is_shortest_free_run (diff : string) :
  ∃ n,
    formatDiff diff
    = Js.repeat "`" n +:+ "diff" +:+ LF +:+ diff +:+ Js.repeat "`" n +:+ LF +:+ LF
    ∧ (3 ≤ n)%nat
    ∧ Js.includes diff (Js.repeat "`" n) = false
    ∧ ∀ m, (3 ≤ m < n)%nat → Js.includes diff (Js.repeat "`" m) = true.
Proof.
  exists (fenceLoop diff 3 (String.length diff)).
  split; [done|]. split; [apply fenceLoop_ge|]. split; [apply fence_not_in_diff|].
  intros m Hm. by apply (fenceLoop_below diff (String.length diff) 3).
Qed.

Lemma startsWith_empty (s : string) : Js.startsWith s EmptyString = true.
Proof. by destruct s. Qed.

Lemma indexOf_empty (s : string) : Js.indexOf s EmptyString = Some 0%nat.
Proof. rewrite indexOf_unfold. by rewrite startsWith_empty. Qed.

(** X6. An edit with an empty [oldText] never fails: the empty text is
    found at the start of any content, and the expansion of [newText] is
    put in front of the content; it is [newText] itself when that holds no
    dollar sign. *)
Theorem X6_empty_oldText_prepends (content : string) (edit : Edit) :
  oldText edit = EmptyString →
  applyEdit content edit
  = Ok (Js.getSubstitution EmptyString EmptyString content
          (normalizeLineEndings (newText edit)) +:+ content)
  ∧ (Js.includes (normalizeLineEndings (newText edit)) "$" = false →
     applyEdit content edit = Ok (normalizeLineEndings (newText edit) +:+ content)).
Proof.
  intros Hold. unfold applyEdit. cbv zeta. rewrite Hold. simpl normalizeLineEndings.
  unfold Js.includes, Js.replace. rewrite indexOf_empty. simpl.
  split; [done|]. intros Hnew. by rewrite getSubstitution_literal.
Qed.

(** X6, on the edit that puts a comment line in front of a file. *)
Lemma X6_prepend_witness :
  applyEdit "x = 1" {| oldText := EmptyString; newText := "# setup" +:+ LF |}
  = Ok ("# setup" +:+ LF +:+ "x = 1").
Proof.
  exact (proj2 (X6_empty_oldText_prepends "x = 1"
                  {| oldText := EmptyString; newText := "# setup" +:+ LF |} eq_refl)
           eq_refl).
Defined.

(** X7. When the normalized [newText] holds no dollar sign and the
    normalized [oldText] occurs in the content, the edit succeeds with the
    content in which the first occurrence, the one [indexOf] finds, is
    replaced by [newText]; the text before and after it is kept, and no
    occurrence starts earlier. *)
Theorem X7_exact_replacement_without_dollar (content : string) (edit : Edit) (pos : nat) :
  let old := normalizeLineEndings (oldText edit) in
  let new := normalizeLineEndings (newText edit) in
  Js.includes new "$" = false →
  Js.indexOf content old = Some pos →
  applyEdit content edit
  = Ok (Js.sliceTo pos content +:+ new
        +:+ Js.sliceFrom (pos + String.length old) content)
  ∧ content = Js.sliceTo pos content +:+ old
              +:+ Js.sliceFrom (pos + String.length old) content
  ∧ ∀ k, (k < pos)%nat → Js.startsWith (Js.sliceFrom k content) old = false.
Proof.
  intros old new Hnew Hpos. destruct (indexOf_occurs _ _ _ Hpos) as (Hsplit & _ & Hfirst).
  split; [|by split].
  unfold applyEdit. cbv zeta. fold old new. unfold Js.includes. rewrite Hpos.
  by rewrite (replace_first_occurrence _ _ _ pos).
Qed.

(** X7, on the second of two occurrences left alone. *)
Lemma X7_replacement_witness :
  applyEdit "a-b-c" {| oldText := "-"; newText := "+" |} = Ok "a+b-c".
Proof.
  exact (proj1 (X7_exact_replacement_without_dollar "a-b-c"
                  {| oldText := "-"; newText := "+" |} 1%nat eq_refl eq_refl)).
Defined.

(** X8. An edit whose [newText] is its [oldText], without a dollar sign,
    and whose text occurs in the content leaves the content as it is. *)
Theorem X8_same_text_changes_nothing (content : string) (edit : Edit) :
  newText edit = oldText edit →
  Js.includes (normalizeLineEndings (oldText edit)) "$" = false →
  matchesExactly content edit →
  applyEdit content edit = Ok content.
Proof.
  intros Hsame Hdollar Hexact. unfold matchesExactly in Hexact.
  unfold applyEdit. cbv zeta. rewrite Hexact, Hsame.
  unfold Js.includes in Hexact.
  destruct (Js.indexOf content (normalizeLineEndings (oldText edit))) as [pos|] eqn:Hpos;
    [|done].
  rewrite (replace_first_occurrence _ _ _ pos Hdollar Hpos).
  destruct (indexOf_occurs _ _ _ Hpos) as (Hsplit & _). by rewrite <- Hsplit.
Qed.

(** X8, on a line replaced by itself. *)
Lemma X8_same_text_witness :
  applyEdit Examples.sourceText {| oldText := "return x;"; newText := "return x;" |}
  = Ok Examples.sourceText.
Proof.
  apply (X8_same_text_changes_nothing Examples.sourceText
           {| oldText := "return x;"; newText := "return x;" |});
    reflexivity.
Defined.

Lemma normalizeLineEndings_other (c : ascii) (rest : string) :
  Js.startsWith (String c rest) CRLF = false →
  normalizeLineEndings (String c rest) = String c (normalizeLineEndings rest).
Proof.
  intros Hstart.
  destruct c as [[] [] [] [] [] [] [] []]; try reflexivity.
  destruct rest as [|c2 rest]; [reflexivity|].
  destruct c2 as [[] [] [] [] [] [] [] []]; try reflexivity.
  by destruct rest.
Qed.

(** Text without a carriage return before a line feed is not changed. *)
Lemma normalizeLineEndings_id (s : string) :
  Js.includes s CRLF = false → normalizeLineEndings s = s.
Proof.
  induction s as [|c rest IH]; [done|].
  intros Hinc. apply includes_cons_false in Hinc as [Hhead Hrest].
  rewrite normalizeLineEndings_other by done. by rewrite IH.
Qed.

Lemma written_twice (fs : FileSystem) (filePath first second : string) :
  written (written fs filePath first) filePath second = written fs filePath second.
Proof. unfold written. simpl. f_equal. apply insert_insert_eq. Qed.

Section PatchEngineExtras.
Variable createTwoFilesPatch : string → string → string → string → string → string → string.

(** X11. Two calls without [dryRun], the second on the file the first
    stored, leave the file system that one call with the two lists joined
    leaves, when all edits apply and the content stored by the first call
    holds no carriage return and line feed pair for the second to turn. *)
Theorem X11_two_calls_as_one (fs : FileSystem) (filePath raw mid final : string)
    (first second : list Edit) :
  files fs !! filePath = Some raw →
  applyEdits (normalizeLineEndings raw) first = Ok mid →
  normalizeLineEndings mid = mid →
  applyEdits mid second = Ok final →
  (applyFileEdits createTwoFilesPatch filePath second false
     (applyFileEdits createTwoFilesPatch filePath first false fs).2).2
  = (applyFileEdits createTwoFilesPatch filePath (first ++ second) false fs).2
  ∧ (applyFileEdits createTwoFilesPatch filePath (first ++ second) false fs).2
    = written fs filePath final.
Proof.
  intros Hraw Hfirst Hmid Hsecond.
  rewrite (applyFileEdits_readable _ _ _ _ (first ++ second) _ Hraw).
  rewrite applyEdits_app, Hfirst. simpl. rewrite Hsecond. simpl.
  rewrite (applyFileEdits_readable _ _ _ _ first _ Hraw), Hfirst. simpl.
  rewrite (applyFileEdits_readable _ (written fs filePath mid) filePath mid).
  - rewrite Hmid, Hsecond. simpl. split; [apply written_twice | done].
  - unfold written. simpl. apply lookup_insert_eq.
Qed.

End PatchEngineExtras.

(** X11, on the edit of [x] into [y] followed by the edit of [y] into [0]. *)
Lemma X11_two_calls_witness :
  let first := [Examples.returnY] in
  let second := [{| oldText := "return y;"; newText := "return 0;" |}] in
  (applyFileEdits Examples.wholeFilePatch "/allowed/f.js" second false
     (applyFileEdits Examples.wholeFilePatch "/allowed/f.js" first false
        Examples.sourceFs).2).2
  = (applyFileEdits Examples.wholeFilePatch "/allowed/f.js" (first ++ second) false
       Examples.sourceFs).2.
Proof.
  intros first second.
  exact (proj1 (X11_two_calls_as_one Examples.wholeFilePatch Examples.sourceFs
                  "/allowed/f.js" Examples.sourceText _ _ first second
                  eq_refl eq_refl eq_refl eq_refl)).
Defined.

(** ** Lines *)

Lemma split_cons (sep c : ascii) (s : string) :
  Js.split sep (String c s) =
    if Ascii.eqb c sep then EmptyString :: Js.split sep s
    else match Js.split sep s with
         | l :: ls => String c l :: ls
         | [] => [String c EmptyString]
         end.
Proof. reflexivity. Qed.

Lemma singleLine_cons (c : ascii) (s : string) :
  singleLine (String c s) ↔ c ≠ newline ∧ singleLine s.
Proof.
  unfold singleLine. rewrite split_cons.
  destruct (Ascii.eqb c newline) eqn:Hc.
  - apply Ascii.eqb_eq in Hc. split; [done | by intros [Hne _]].
  - apply Ascii.eqb_neq in Hc.
    destruct (Js.split newline s) as [|l ls] eqn:Hs; [by apply split_nonempty in Hs|].
    split.
    + intros [= -> ->]. by split.
    + by intros [_ [= -> ->]].
Qed.

Lemma singleLine_app (a b : string) :
  singleLine a → singleLine b → singleLine (a +:+ b).
Proof.
  induction a as [|c a IH]; [done|].
  rewrite append_cons, !singleLine_cons. intros [Hc Ha] Hb. split; [done | by apply IH].
Qed.

Lemma split_lines_single (s : string) : Forall singleLine (Js.split newline s).
Proof.
  induction s as [|c s IH]; [by constructor|].
  rewrite split_cons. destruct (Ascii.eqb c newline) eqn:Hc.
  - by constructor.
  - apply Ascii.eqb_neq in Hc.
    destruct (Js.split newline s) as [|l ls] eqn:Hs; [by apply split_nonempty in Hs|].
    inversion IH; subst. constructor; [by apply singleLine_cons | done].
Qed.

Lemma split_line_then_rest (a b : string) :
  singleLine a →
  Js.split newline (a +:+ LF +:+ b) = a :: Js.split newline b.
Proof.
  induction a as [|c a IH]; [done|].
  rewrite singleLine_cons. intros [Hc Ha].
  rewrite append_cons, split_cons, IH by done.
  apply Ascii.eqb_neq in Hc. by rewrite Hc.
Qed.

(** Joining lines and splitting again gives the lines back. *)
Lemma split_join (lines : list string) :
  lines ≠ [] → Forall singleLine lines →
  Js.split newline (Js.join LF lines) = lines.
Proof.
  induction lines as [|x [|y rest] IH]; [done | |].
  - intros _ Hx. by inversion Hx.
  - intros _ Hall. inversion Hall as [|? ? Hx Hrest]; subst.
    change (Js.join LF (x :: y :: rest)) with (x +:+ LF +:+ Js.join LF (y :: rest)).
    rewrite split_line_then_rest by done. f_equal. by apply IH.
Qed.

Lemma singleLine_leadingWhitespace (s : string) :
  singleLine s → singleLine (Js.leadingWhitespace s).
Proof.
  induction s as [|c s IH]; [done|].
  rewrite singleLine_cons. intros [Hc Hs]. simpl.
  destruct (Js.isWhiteSpace c); [|done]. apply singleLine_cons. split; [done | by apply IH].
Qed.

Lemma singleLine_trimStart (s : string) :
  singleLine s → singleLine (Js.trimStart s).
Proof.
  induction s as [|c s IH]; [done|].
  intros Hcs. simpl. destruct (Js.isWhiteSpace c); [|done].
  apply IH. by apply singleLine_cons in Hcs as [_ Hs].
Qed.

Lemma singleLine_spaces (n : nat) : singleLine (Js.repeat " " n).
Proof.
  induction n as [|n IH]; [done|].
  simpl. change (" " +:+ Js.repeat " " n) with (String " "%char (Js.repeat " " n)).
  apply singleLine_cons. by split.
Qed.

Lemma singleLine_reindent (originalIndent line : string) (oldLines : list string)
    (j : nat) :
  singleLine originalIndent → singleLine line →
  singleLine (reindent originalIndent oldLines line j).
Proof.
  intros Hindent Hline. unfold reindent.
  destruct (j =? 0)%nat.
  - apply singleLine_app; [done | by apply singleLine_trimStart].
  - cbv zeta. destruct (Js.truthy _ && Js.truthy _); [|done].
    apply singleLine_app; [done|].
    apply singleLine_app; [apply singleLine_spaces | by apply singleLine_trimStart].
Qed.

Lemma Forall_imap_lines (f : nat → string → string) (lines : list string) :
  (∀ j line, singleLine line → singleLine (f j line)) →
  Forall singleLine lines → Forall singleLine (imap f lines).
Proof.
  revert f. induction lines as [|x lines IH]; intros f Hf Hall; [by constructor|].
  inversion Hall; subst. rewrite imap_cons. constructor; [by apply Hf|].
  apply IH; [|done]. intros j line. apply Hf.
Qed.

(** X10. After a replacement through a window, the lines of the new
    content are the lines before the window, as many replacement lines as
    [newText] has lines, and the lines after the window: the replacement
    adds and removes no line feed elsewhere, so a later edit sees the
    lines that were spliced in. *)
Theorem X10_window_replacement_lines (content : string) (edit : Edit) (i : nat) :
  let oldLines := Js.split newline (normalizeLineEndings (oldText edit)) in
  let newLines := Js.split newline (normalizeLineEndings (newText edit)) in
  let contentLines := Js.split newline content in
  ¬ matchesExactly content edit →
  windowMatches oldLines contentLines i →
  (∀ k, (k < i)%nat → ¬ windowMatches oldLines contentLines k) →
  ∃ result replacement,
    applyEdit content edit = Ok result
    ∧ Js.split newline result
      = (take i contentLines ++ replacement
         ++ drop (i + length oldLines) contentLines)%list
    ∧ length replacement = length newLines
    ∧ length (Js.split newline result)
      = (length contentLines - length oldLines + length newLines)%nat.
Proof.
  intros oldLines newLines contentLines Hexact Hwin Hfirst.
  assert (i + length oldLines ≤ length contentLines)%nat as Hrange.
  { apply windowMatches_in_range; [apply split_nonempty | done]. }
  set (originalIndent :=
         match contentLines !! i with
         | Some contentLine => Js.leadingWhitespace contentLine
         | None => EmptyString
         end).
  set (replacement := Js.mapi (reindent originalIndent oldLines) newLines).
  exists (fuzzyReplace oldLines contentLines (normalizeLineEndings (newText edit)) i),
    replacement.
  assert (Forall singleLine contentLines) as Hlines by apply split_lines_single.
  assert (singleLine originalIndent) as Hindent.
  { unfold originalIndent. destruct (contentLines !! i) as [contentLine|] eqn:Hi; [|done].
    apply singleLine_leadingWhitespace.
    rewrite Forall_forall in Hlines. apply Hlines.
    apply list_elem_of_lookup. by exists i. }
  assert (length replacement = length newLines) as Hlen.
  { unfold replacement, Js.mapi. by rewrite length_imap. }
  assert (Js.split newline
            (fuzzyReplace oldLines contentLines (normalizeLineEndings (newText edit)) i)
          = (take i contentLines ++ replacement
             ++ drop (i + length oldLines) contentLines)%list) as Hsplit.
  { unfold fuzzyReplace, Js.splice. cbv zeta. fold originalIndent newLines replacement.
    apply split_join.
    - intros Hnil. apply app_eq_nil in Hnil as [_ Hnil].
      apply app_eq_nil in Hnil as [Hnil _].
      apply (f_equal length) in Hnil. rewrite Hlen in Hnil.
      pose proof (split_nonempty newline (normalizeLineEndings (newText edit))) as Hne.
      fold newLines in Hne. by destruct newLines.
    - apply Forall_app. split; [by apply Forall_take|].
      apply Forall_app. split; [|by apply Forall_drop].
      apply Forall_imap_lines; [|apply split_lines_single].
      intros j line Hline. by apply singleLine_reindent. }
  split; [|split; [done|split; [done|]]].
  - unfold applyEdit, matchesExactly in *. cbv zeta.
    destruct (Js.includes content _); [done|].
    fold oldLines contentLines.
    rewrite (fuzzyLoop_first _ _ _ 0 _ i); [done | | done |].
    + split; [lia|]. simpl. by apply windowStarts_lt.
    + intros k' Hk'. apply Hfirst. lia.
  - rewrite Hsplit, !length_app, length_take, length_drop, Hlen. lia.
Qed.

(** X10, on the file whose second line is replaced through a window. *)
Lemma X10_lines_witness :
  ∃ result replacement,
    applyEdit Examples.sourceText {| oldText := "return x; "; newText := "return y;" |}
    = Ok result
    ∧ Js.split newline result
      = (take 1 (Js.split newline Examples.sourceText) ++ replacement
         ++ drop (1 + length (Js.split newline (normalizeLineEndings "return x; ")))
              (Js.split newline Examples.sourceText))%list
    ∧ length replacement = length (Js.split newline (normalizeLineEndings "return y;"))
    ∧ length (Js.split newline result)
      = (length (Js.split newline Examples.sourceText)
         - length (Js.split newline (normalizeLineEndings "return x; "))
         + length (Js.split newline (normalizeLineEndings "return y;")))%nat.
Proof.
  apply (X10_window_replacement_lines Examples.sourceText
           {| oldText := "return x; "; newText := "return y;" |} 1%nat).
  - unfold matchesExactly. vm_compute. discriminate.
  - apply isMatch_windowMatches. reflexivity.
  - intros k Hk. assert (k = 0%nat) as -> by lia.
    rewrite <- isMatch_windowMatches. vm_compute. discriminate.
Defined.

(** ** Search *)

Section SearchExtras.
Context `{PathModule} (proc : Process).
Variable minimatch : string → string → bool.
Variable fs : FileSystem.
Variables (rootPath : string) (excludePatterns : list string).

Lemma forEntries_invariant (Inv : list string → Prop)
    (body : Dirent → list string → option (list string))
    (listing entries : list Dirent) (results results' : list string) :
  (∀ entry rs rs', entry ∈ listing → Inv rs → body entry rs = Some rs' → Inv rs') →
  entries ⊆ listing → Inv results →
  forEntries body entries results = Some results' → Inv results'.
Proof.
  intros Hbody. revert results.
  induction entries as [|entry rest IH]; intros results Hsub Hinv; simpl.
  - by intros [= <-].
  - destruct (body entry results) as [rs|] eqn:Hstep; [|done].
    apply IH.
    + intros e He. apply Hsub. by right.
    + apply (Hbody entry results rs); [apply Hsub; by left | done | done].
Qed.

Lemma search_keeps (pattern : string) (depth : nat) (currentPath : string)
    (results results' : list string) (r : result unit) :
  Forall (keptBySearch proc minimatch fs rootPath pattern excludePatterns) results →
  search proc minimatch fs rootPath pattern excludePatterns depth currentPath results
  = Some (r, results') →
  Forall (keptBySearch proc minimatch fs rootPath pattern excludePatterns) results'.
Proof.
  revert currentPath results results' r.
  induction depth as [|depth IH]; intros currentPath results results' r Hkept; [done|].
  simpl. unfold fs_readdir.
  destruct (directories fs !! currentPath) as [entries|] eqn:Hdir;
    [|by intros [= <- <-]].
  destruct (forEntries _ entries results) as [rs|] eqn:Hloop; [|done].
  intros [= <- <-].
  eapply (forEntries_invariant
            (Forall (keptBySearch proc minimatch fs rootPath pattern excludePatterns))
            _ entries entries results rs); [|done|done|exact Hloop].
  intros entry rs0 rs1 Hentry Hrs0. unfold visit. cbv zeta.
  destruct (validatePath proc fs (join [currentPath; name entry])) as [valid|e] eqn:Hvalid;
    [|by intros [= <-]].
  destruct (shouldExclude minimatch excludePatterns _) eqn:Hexcl; [by intros [= <-]|].
  assert (Forall (keptBySearch proc minimatch fs rootPath pattern excludePatterns)
            (if Js.includes (Js.toLowerCase (name entry)) (Js.toLowerCase pattern)
             then (rs0 ++ [join [currentPath; name entry]])%list else rs0)) as Hpushed.
  { destruct (Js.includes _ _) eqn:Hname; [|done].
    apply Forall_app. split; [done|]. constructor; [|constructor].
    split; [by exists valid|]. split; [done|].
    by exists currentPath, entries, entry. }
  destruct (isDirectory entry); [|by intros [= <-]].
  destruct (search _ _ _ _ _ _ depth _ _) as [[r' rs']|] eqn:Hnested; [|done].
  intros [= <-]. by apply (IH _ _ _ _ Hpushed Hnested).
Qed.

(** X12. Every path that [searchFiles] returns passed [validatePath], is
    matched by no exclude pattern on its path relative to the root, and is
    an entry of a directory that was listed, with a name that holds the
    pattern when both are lower-cased. *)
Theorem X12_search_results_are_kept (pattern : string) (depth : nat)
    (results : list string) :
  searchFiles proc minimatch fs depth rootPath pattern excludePatterns = Some (Ok results) →
  ∀ p, p ∈ results →
       keptBySearch proc minimatch fs rootPath pattern excludePatterns p.
Proof.
  unfold searchFiles.
  destruct (search _ _ _ _ _ _ depth rootPath []) as [[[u|e] rs]|] eqn:Hsearch; [|done|done].
  intros [= <-]. apply Forall_forall.
  by apply (search_keeps pattern depth rootPath [] rs (Ok u)).
Qed.

Lemma forEntries_ext (body1 body2 : Dirent → list string → option (list string))
    (entries : list Dirent) (results : list string) :
  (∀ entry rs, body1 entry rs = body2 entry rs) →
  forEntries body1 entries results = forEntries body2 entries results.
Proof.
  intros Hext. revert results. induction entries as [|entry rest IH]; intros results;
    simpl; [done|].
  rewrite Hext. destruct (body2 entry results); [apply IH | done].
Qed.

Lemma search_pattern_case (pattern1 pattern2 : string) (depth : nat)
    (currentPath : string) (results : list string) :
  Js.toLowerCase pattern1 = Js.toLowerCase pattern2 →
  search proc minimatch fs rootPath pattern1 excludePatterns depth currentPath results
  = search proc minimatch fs rootPath pattern2 excludePatterns depth currentPath results.
Proof.
  intros Hcase. revert currentPath results.
  induction depth as [|depth IH]; intros currentPath results; [done|].
  simpl. destruct (fs_readdir fs currentPath) as [entries|e]; [|done].
  rewrite (forEntries_ext _
             (visit proc minimatch
                (search proc minimatch fs rootPath pattern2 excludePatterns depth)
                fs rootPath pattern2 excludePatterns currentPath)); [done|].
  intros entry rs. unfold visit. cbv zeta. rewrite Hcase.
  destruct (validatePath proc fs _); [|done].
  destruct (shouldExclude minimatch excludePatterns _); [done|].
  destruct (isDirectory entry); [|done]. by rewrite IH.
Qed.

(** X13. The search does not depend on the letter case of the pattern:
    two patterns with the same lower-case form give the same answer. *)
Theorem X13_search_ignores_pattern_case (pattern1 pattern2 : string) (depth : nat) :
  Js.toLowerCase pattern1 = Js.toLowerCase pattern2 →
  searchFiles proc minimatch fs depth rootPath pattern1 excludePatterns
  = searchFiles proc minimatch fs depth rootPath pattern2 excludePatterns.
Proof.
  intros Hcase. unfold searchFiles. by rewrite (search_pattern_case pattern1 pattern2).
Qed.

End SearchExtras.

(** X12, on the tree with [build] and [src]: the one result is kept. *)
Lemma X12_search_kept_witness :
  keptBySearch Examples.searchProc Glob.minimatch Examples.treeFs "/root" "foo" ["build"]
    "/root/src/foo.txt".
Proof.
  apply (X12_search_results_are_kept Examples.searchProc Glob.minimatch Examples.treeFs
           "/root" ["build"] "foo" 3 ["/root/src/foo.txt"]).
  - reflexivity.
  - by left.
Defined.

(** X13, on [FOO] and [foo]. *)
Lemma X13_pattern_case_witness :
  searchFiles Examples.searchProc Glob.minimatch Examples.treeFs 3 "/root" "FOO" ["build"]
  = searchFiles Examples.searchProc Glob.minimatch Examples.treeFs 3 "/root" "foo" ["build"].
Proof.
  exact (X13_search_ignores_pattern_case Examples.searchProc Glob.minimatch
           Examples.treeFs "/root" ["build"] "FOO" "foo" 3 eq_refl).
Defined.


(** ** Tool handlers *)

Section ToolExtras.
Context `{PathModule} (proc : Process).
Variable createTwoFilesPatch : string → string → string → string → string → string → string.
Variable minimatch : string → string → bool.



(** X18. No tool that takes a path goes past [validatePath]: when it
    throws for the path of the call, the answer is an error with the
    message of what it threw, and the file system is left as it was. *)
Theorem X18_refused_path_is_the_answer (depth : nat) (call : ToolCall)
    (fs : FileSystem) (path : string) (e : JsError) :
  toolPath call = Some path →
  validatePath proc fs path = Throw e →
  callTool proc createTwoFilesPatch minimatch depth call fs
  = Some ({| resultText := "Error: " +:+ message e; isError := true |}, fs).
Proof.
  intros Hpath Hrefused. unfold callTool.
  destruct call as [p|ps|p c|p edits dryRun|p|p pattern excl| |toolName];
    simplify_eq/=;
    unfold readFileTool, writeFileTool, editFileTool, listDirectoryTool, searchFilesTool,
      validatePathM, mbind, M_bind;
    by rewrite Hrefused.
Qed.

End ToolExtras.


(** X18, on a write outside the allowed directory. *)
Lemma X18_refused_witness :
  callTool Examples.proc Examples.wholeFilePatch Glob.minimatch 0
    (write_file "/etc/passwd" "x") Examples.emptyRootFs
  = Some ({| resultText :=
               "Error: Access denied - path outside allowed directories: /etc/passwd not in /allowed";
             isError := true |}, Examples.emptyRootFs).
Proof.
  exact (X18_refused_path_is_the_answer Examples.proc Examples.wholeFilePatch
           Glob.minimatch 0 (write_file "/etc/passwd" "x") Examples.emptyRootFs
           "/etc/passwd" _ eq_refl eq_refl).
Defined.

(** ** File type detection *)

Lemma image_is_not_text (mimeType : string) :
  Js.startsWith mimeType "image/" = true →
  Js.startsWith mimeType "text/" || arrayIncludes textTypes mimeType = false.
Proof.
  intros Himage. apply startsWith_split in Himage. rewrite Himage. reflexivity.
Qed.

(** X20. A file is loaded as an image exactly when its MIME type starts
    with [image/], whatever its size. *)
Theorem X20_image_iff_image_type (mimeType : string) (size : Z) :
  loadAsType mimeType size = IMAGE ↔ Js.startsWith mimeType "image/" = true.
Proof.
  unfold loadAsType. split.
  - destruct (Js.startsWith mimeType "text/" || arrayIncludes textTypes mimeType); [done|].
    destruct (Js.startsWith mimeType "image/"); [done|].
    destruct (arrayIncludes binaryTypes mimeType); [done|].
    by destruct (size <? 100 * 1024)%Z.
  - intros Himage. by rewrite image_is_not_text, Himage.
Qed.

(** X21. When the MIME lookup knows nothing about a path, the prompts,
    which fall back to [application/octet-stream], load the file as binary
    whatever its size, while the resource reader, which falls back to
    [application/x-unknown], loads it as text exactly when it is smaller
    than 102400 bytes. *)
Theorem X21_unknown_type_fallbacks (lookup : string → option string) (p : string)
    (size : Z) :
  lookup p = None →
  loadAsType (mimeTypeOr lookup p "application/octet-stream") size = BINARY
  ∧ (loadAsType (mimeTypeOr lookup p "application/x-unknown") size = TEXT
     ↔ (size < 102400)%Z).
Proof.
  intros Hnone. unfold mimeTypeOr. rewrite Hnone. split; [done|].
  unfold loadAsType. simpl.
  destruct (size <? 100 * 1024)%Z eqn:Hsize.
  - apply Z.ltb_lt in Hsize. split; [lia | done].
  - apply Z.ltb_ge in Hsize. split; [done | lia].
Qed.

(** X21, on a file without a known extension of 12 bytes. *)
Lemma X21_fallback_witness :
  loadAsType (mimeTypeOr (fun _ => None) "/allowed/Makefile" "application/octet-stream") 12
  = BINARY
  ∧ (loadAsType (mimeTypeOr (fun _ => None) "/allowed/Makefile" "application/x-unknown") 12
     = TEXT ↔ (12 < 102400)%Z).
Proof.
  exact (X21_unknown_type_fallbacks (fun _ => None) "/allowed/Makefile" 12 eq_refl).
Defined.

(** ** More on the handlers *)

Section HandlerExtras.
Context `{PathModule} (proc : Process).
Variable createTwoFilesPatch : string → string → string → string → string → string → string.
Variable minimatch : string → string → bool.

(** X22. [list_directory] answers with one line for each entry, in the
    order of the listing, marked [DIR] or [FILE]: when no name holds a line
    feed, splitting the text at line feeds gives these lines back. For an
    empty directory the text is empty. *)
Theorem X22_list_directory_lines (depth : nat) (fs : FileSystem) (path valid : string)
    (entries : list Dirent) :
  validatePath proc fs path = Ok valid →
  directories fs !! valid = Some entries →
  ∃ text,
    callTool proc createTwoFilesPatch minimatch depth (list_directory path) fs
    = Some ({| resultText := text; isError := false |}, fs)
    ∧ (entries = [] → text = EmptyString)
    ∧ (entries ≠ [] →
       Forall (fun entry => singleLine (name entry)) entries →
       Js.split newline text
       = map (fun entry =>
                (if isDirectory entry then "[DIR]" else "[FILE]") +:+ " " +:+ name entry)
           entries).
Proof.
  intros Hvalid Hdir.
  unfold callTool, listDirectoryTool, validatePathM, readdirM, mbind, M_bind, fs_readdir.
  rewrite Hvalid, Hdir. simpl. eexists. split; [reflexivity|]. split.
  - by intros ->.
  - intros Hne Hnames. apply split_join.
    + by destruct entries.
    + apply Forall_fmap. eapply Forall_impl; [exact Hnames|].
      intros entry Hname. simpl. apply singleLine_app; [by destruct (isDirectory entry)|].
      by apply singleLine_app.
Qed.

End HandlerExtras.

(** X22, on the allowed directory with a file and a link. *)
Lemma X22_list_directory_witness :
  ∃ text,
    callTool Examples.proc Examples.wholeFilePatch Glob.minimatch 0
      (list_directory "/allowed") ToolExamples.innerLinkFs
    = Some ({| resultText := text; isError := false |}, ToolExamples.innerLinkFs)
    ∧ ([ {| name := "data.txt"; isDirectory := false |};
         {| name := "link"; isDirectory := false |} ] = [] → text = EmptyString)
    ∧ ([ {| name := "data.txt"; isDirectory := false |};
         {| name := "link"; isDirectory := false |} ] ≠ [] →
       Forall (fun entry => singleLine (name entry))
         [ {| name := "data.txt"; isDirectory := false |};
           {| name := "link"; isDirectory := false |} ] →
       Js.split newline text = ["[FILE] data.txt"; "[FILE] link"]).
Proof.
  exact (X22_list_directory_lines Examples.proc Examples.wholeFilePatch Glob.minimatch 0
           ToolExamples.innerLinkFs "/allowed" "/allowed" _ eq_refl eq_refl).
Defined.

(** ** File information *)

(** More rounds than the digits need change nothing. *)
Lemma octalLoop_enough (rounds extra : nat) (n : N) (acc : string) :
  (n < 8 ^ N.of_nat (S rounds))%N →
  octalLoop (S rounds + extra) n acc = octalLoop (S rounds) n acc.
Proof.
  revert n acc. induction rounds as [|rounds IH]; intros n acc Hn.
  - simpl. assert ((n <? 8)%N = true) as -> by (apply N.ltb_lt; simpl in Hn; lia). done.
  - change (octalLoop (S (S rounds) + extra) n acc)
      with (let acc' := String (octalDigit (n mod 8)) acc in
            if (n <? 8)%N then acc' else octalLoop (S rounds + extra) (n / 8) acc').
    change (octalLoop (S (S rounds)) n acc)
      with (let acc' := String (octalDigit (n mod 8)) acc in
            if (n <? 8)%N then acc' else octalLoop (S rounds) (n / 8) acc').
    cbv zeta. destruct (n <? 8)%N eqn:Hsmall; [done|].
    apply IH. rewrite (Nat2N.inj_succ (S rounds)), N.pow_succ_r' in Hn.
    apply N.Div0.div_lt_upper_bound. lia.
Qed.

Lemma toStringOctal_rounds (n : N) : (n < 8 ^ N.of_nat (S (N.to_nat (N.log2 n))))%N.
Proof.
  rewrite Nat2N.inj_succ, N2Nat.id.
  destruct (decide (n = 0%N)) as [->|Hpos]; [done|].
  pose proof (N.log2_spec n ltac:(lia)) as [_ Hlt].
  eapply N.lt_le_trans; [exact Hlt|].
  apply N.pow_le_mono_l. lia.
Qed.

(** The rounds given to [octalLoop] suffice: more of them give the same digits. *)
Lemma toStringOctal_bound_enough (n : N) (extra : nat) :
  octalLoop (S (N.to_nat (N.log2 n)) + extra) n EmptyString = toStringOctal n.
Proof. apply octalLoop_enough, toStringOctal_rounds. Qed.

Example toStringOctal_examples :
  toStringOctal 0 = "0" ∧ toStringOctal 8 = "10" ∧ toStringOctal 511 = "777"
  ∧ toStringOctal 33188 = "100644" ∧ permissions 5 = "5".
Proof. repeat split. Qed.

Lemma octalLoop_suffix (rounds : nat) (n : N) (acc : string) :
  ∃ front, octalLoop rounds n acc = front +:+ acc.
Proof.
  revert n acc. induction rounds as [|rounds IH]; intros n acc; simpl.
  - by exists EmptyString.
  - destruct (n <? 8)%N.
    + by exists (String (octalDigit (n mod 8)) EmptyString).
    + destruct (IH (n / 8)%N (String (octalDigit (n mod 8)) acc)) as [front ->].
      exists (front +:+ String (octalDigit (n mod 8)) EmptyString).
      clear. induction front as [|c front IHf]; [done|].
      by rewrite !append_cons, IHf.
Qed.

Lemma sliceFrom_app (front back : string) :
  Js.sliceFrom (String.length front) (front +:+ back) = back.
Proof. induction front as [|c front IH]; [by destruct back | by rewrite append_cons]. Qed.

(** X25. For a mode of at least 100 in octal, as every file's mode is
    with its type bits, [permissions] is the three octal digits of the
    permission bits: the digits of the mode modulo 512, and nothing of the
    file type. *)
Theorem X25_permissions_are_the_last_three_digits (mode : N) :
  (64 ≤ mode)%N →
  permissions mode
  = String (octalDigit (mode / 64 mod 8))
      (String (octalDigit (mode / 8 mod 8))
         (String (octalDigit (mode mod 8)) EmptyString))
  ∧ (mode mod 512 = 64 * (mode / 64 mod 8) + 8 * (mode / 8 mod 8) + mode mod 8)%N.
Proof.
  intros Hmode. split.
  - unfold permissions, toStringOctal.
    assert (6 ≤ N.log2 mode)%N as Hlog.
    { change 6%N with (N.log2 64). by apply N.log2_le_mono. }
    destruct (N.to_nat (N.log2 mode)) as [|[|rounds]] eqn:Hrounds; [lia|lia|].
    simpl octalLoop.
    assert ((mode <? 8)%N = false) as -> by (apply N.ltb_ge; lia).
    assert ((mode / 8 <? 8)%N = false) as ->.
    { apply N.ltb_ge. apply N.div_le_lower_bound; lia. }
    replace (mode / 8 / 8)%N with (mode / 64)%N by (rewrite N.Div0.div_div; done).
    set (digits := String (octalDigit (mode / 64 mod 8))
                     (String (octalDigit (mode / 8 mod 8))
                        (String (octalDigit (mode mod 8)) EmptyString))).
    assert (∃ front, (if (mode / 64 <? 8)%N then digits
                      else octalLoop rounds (mode / 64 / 8) digits) = front +:+ digits)
      as [front ->].
    { destruct (mode / 64 <? 8)%N; [by exists EmptyString | apply octalLoop_suffix]. }
    unfold sliceLast. rewrite app_length_str.
    replace (String.length front + String.length digits - 3)%nat
      with (String.length front) by (simpl; lia).
    apply sliceFrom_app.
  - rewrite (N.Div0.div_mod mode 8) at 1.
    rewrite (N.Div0.div_mod (mode / 8) 8) at 1.
    rewrite N.Div0.div_div. change (8 * 8)%N with 64%N.
    rewrite (N.Div0.div_mod (mode / 64) 8) at 1.
    pose proof (N.mod_upper_bound (mode / 64) 8 ltac:(lia)).
    pose proof (N.mod_upper_bound (mode / 8) 8 ltac:(lia)).
    pose proof (N.mod_upper_bound mode 8 ltac:(lia)).
    replace (8 * (8 * (8 * (mode / 64 / 8) + mode / 64 mod 8) + mode / 8 mod 8)
             + mode mod 8)%N
      with ((64 * (mode / 64 mod 8) + 8 * (mode / 8 mod 8) + mode mod 8)
            + (mode / 64 / 8) * 512)%N by lia.
    rewrite N.Div0.mod_add. apply N.mod_small. lia.
Qed.

(** X25, on a regular file with mode 100644 in octal. *)
Lemma X25_permissions_witness : permissions 33188 = "644".
Proof.
  exact (proj1 (X25_permissions_are_the_last_three_digits 33188 ltac:(vm_compute; discriminate))).
Defined.

(** ** Letter case in the first check *)

Lemma lowerChar_sameLetter (a b : ascii) :
  sameLetter a b → Js.lowerChar a = Js.lowerChar b.
Proof.
  assert (∀ x y : ascii,
            (65 ≤ nat_of_ascii x ≤ 90)%nat →
            nat_of_ascii y = (nat_of_ascii x + 32)%nat →
            Js.lowerChar x = Js.lowerChar y) as Hupper.
  { intros x y Hx Hy. unfold Js.lowerChar. cbv zeta. rewrite Hy.
    assert ((65 <=? nat_of_ascii x)%nat && (nat_of_ascii x <=? 90)%nat = true) as ->.
    { apply andb_true_iff. split; apply Nat.leb_le; lia. }
    assert ((65 <=? nat_of_ascii x + 32)%nat && (nat_of_ascii x + 32 <=? 90)%nat = false)
      as ->.
    { apply andb_false_iff. right. apply Nat.leb_gt. lia. }
    by rewrite <- Hy, ascii_nat_embedding. }
  intros [->|[[Ha Hb]|[Hb Ha]]]; [done | by apply Hupper | symmetry; by apply Hupper].
Qed.

Lemma toLowerCase_sameUpToCase (s t : string) :
  sameUpToCase s t → Js.toLowerCase s = Js.toLowerCase t.
Proof.
  induction 1 as [|a b s t Hab _ IH]; [done|].
  simpl. by rewrite (lowerChar_sameLetter a b), IH.
Qed.

Lemma toLowerCase_app (s t : string) :
  Js.toLowerCase (s +:+ t) = Js.toLowerCase s +:+ Js.toLowerCase t.
Proof.
  induction s as [|c s IH]; [done|]. rewrite append_cons. simpl.
  by rewrite IH, append_cons.
Qed.

Lemma startsWith_app (front rest : string) : Js.startsWith (front +:+ rest) front = true.
Proof.
  induction front as [|c front IH]; [apply startsWith_empty|].
  rewrite append_cons. unfold Js.startsWith in *. simpl.
  by destruct (ascii_dec c c).
Qed.

Section LetterCase.
Context `{PathModule} (proc : Process).

(** X4. The first check ignores letter case. Two paths whose normalized
    forms differ in the case of letters at most pass or fail it together;
    and a path whose normalized form begins with an allowed directory, as
    resolved from the command line, in any letter case, passes it. *)
Theorem X4_check_ignores_case :
  (∀ absolute1 absolute2,
     sameUpToCase (normalize absolute1) (normalize absolute2) →
     startsWithRoot proc (normalizePath absolute1)
     = startsWithRoot proc (normalizePath absolute2))
  ∧ (∀ dir absolute front rest,
       dir ∈ args proc →
       normalize absolute = front +:+ rest →
       sameUpToCase front (normalize (resolve (cwd proc) [expandHome proc dir])) →
       startsWithRoot proc (normalizePath absolute) = true).
Proof.
  split.
  - intros absolute1 absolute2 Hsame. unfold normalizePath.
    by rewrite (toLowerCase_sameUpToCase _ _ Hsame).
  - intros dir absolute front rest Hdir Hfront Hsame.
    unfold startsWithRoot, allowedDirectories. apply existsb_exists.
    exists (normalizePath (resolve (cwd proc) [expandHome proc dir])). split.
    + apply in_map_iff. exists dir. split; [done | by apply list_elem_of_In].
    + unfold normalizePath. rewrite Hfront, toLowerCase_app.
      rewrite (toLowerCase_sameUpToCase _ _ Hsame). apply startsWith_app.
Qed.

End LetterCase.

Lemma sameUpToCase_refl (s : string) : sameUpToCase s s.
Proof. induction s as [|c s IH]; constructor; [by left | done]. Qed.

(** X4, with the allowed directory given as [/Allowed] and the path asked
    for as [/ALLOWED/Notes.txt]: it passes, and so does [/allowed/notes.txt]. *)
Lemma X4_case_witness :
  startsWithRoot ToolExamples.capsProc (normalizePath "/ALLOWED/Notes.txt") = true
  ∧ startsWithRoot ToolExamples.capsProc (normalizePath "/allowed/notes.txt")
    = startsWithRoot ToolExamples.capsProc (normalizePath "/ALLOWED/Notes.txt").
Proof.
  split.
  - apply (proj2 (X4_check_ignores_case ToolExamples.capsProc)
             "/Allowed" "/ALLOWED/Notes.txt" "/ALLOWED" "/Notes.txt").
    + apply list_elem_of_In. simpl. by left.
    + reflexivity.
    + change (sameUpToCase "/ALLOWED" "/Allowed").
      repeat (constructor;
              [first [by left | right; left; vm_compute; lia | right; right; vm_compute; lia]|]).
      constructor.
  - apply (proj1 (X4_check_ignores_case ToolExamples.capsProc)).
    change (sameUpToCase "/allowed/notes.txt" "/ALLOWED/Notes.txt").
    repeat (constructor;
            [first [by left | right; left; vm_compute; lia | right; right; vm_compute; lia]|]).
    constructor.
Defined.

(** ** Line endings *)

Lemma includes_cons (c : ascii) (s sub : string) :
  Js.includes (String c s) sub = Js.startsWith (String c s) sub || Js.includes s sub.
Proof.
  unfold Js.includes. rewrite (indexOf_unfold (String c s)).
  destruct (Js.startsWith (String c s) sub); [done|].
  by destruct (Js.indexOf s sub).
Qed.

Lemma startsWith_CRLF (c : ascii) (rest : string) :
  Js.startsWith (String c rest) CRLF = true →
  ∃ rest', c = "013"%char ∧ rest = String "010"%char rest'.
Proof.
  intros Hstart. apply startsWith_split in Hstart.
  change (CRLF +:+ Js.sliceFrom (String.length CRLF) (String c rest))
    with (String "013"%char (String "010"%char
            (Js.sliceFrom (String.length CRLF) (String c rest)))) in Hstart.
  injection Hstart as -> ->. by eexists.
Qed.

Lemma normalizeLineEndings_length (n : nat) (s : string) :
  (String.length s ≤ n)%nat →
  (String.length (normalizeLineEndings s) ≤ String.length s)%nat
  ∧ (Js.includes s CRLF = true →
     (String.length (normalizeLineEndings s) < String.length s)%nat).
Proof.
  revert s. induction n as [|n IH]; intros [|c rest] Hlen; simpl in Hlen;
    try (split; [done|done]); try lia.
  destruct (Js.startsWith (String c rest) CRLF) eqn:Hstart.
  - destruct (startsWith_CRLF _ _ Hstart) as (rest' & -> & ->).
    change (normalizeLineEndings (String "013" (String "010" rest')))
      with (String "010"%char (normalizeLineEndings rest')).
    destruct (IH rest') as [Hle _]; [simpl in Hlen; lia|]. simpl. lia.
  - rewrite normalizeLineEndings_other by done.
    destruct (IH rest) as [Hle Hlt]; [lia|]. simpl. split; [lia|].
    rewrite includes_cons, Hstart. simpl. intros Hinc. specialize (Hlt Hinc). lia.
Qed.

(** X9. [normalizeLineEndings] leaves a text as it is exactly when the
    text holds no carriage return followed by a line feed, and it never
    makes a text longer. *)
Theorem X9_line_endings_fixed_points (text : string) :
  (normalizeLineEndings text = text ↔ Js.includes text CRLF = false)
  ∧ (String.length (normalizeLineEndings text) ≤ String.length text)%nat.
Proof.
  destruct (normalizeLineEndings_length (String.length text) text) as [Hle Hlt]; [done|].
  split; [|done]. split.
  - intros Hfixed. destruct (Js.includes text CRLF); [|done].
    specialize (Hlt eq_refl). rewrite Hfixed in Hlt. lia.
  - apply normalizeLineEndings_id.
Qed.

(** ** Search and the root directory *)

(** X14. [searchFiles] rejects exactly when [readdir] of its root rejects,
    and with that error; a directory below the root that cannot be listed
    does not make it reject. *)
Theorem X14_search_rejects_iff_root_unlisted `{PathModule} (proc : Process)
    (minimatch : string → string → bool) (fs : FileSystem) (rootPath pattern : string)
    (excludePatterns : list string) (depth : nat) (e : JsError) :
  searchFiles proc minimatch fs (S depth) rootPath pattern excludePatterns
  = Some (Throw e)
  ↔ fs_readdir fs rootPath = Throw e.
Proof.
  unfold searchFiles. simpl.
  destruct (fs_readdir fs rootPath) as [entries|e'].
  - destruct (forEntries _ entries []) as [rs|]; by split.
  - split; by intros [= <-].
Qed.

(** X14, on a root that is not a directory of the tree. *)
Lemma X14_unlisted_root_witness :
  ∃ e, fs_readdir Examples.treeFs "/nowhere" = Throw e
       ∧ searchFiles Examples.searchProc Glob.minimatch Examples.treeFs 1
           "/nowhere" "foo" [] = Some (Throw e).
Proof.
  eexists. split; [reflexivity|].
  by apply (X14_search_rejects_iff_root_unlisted Examples.searchProc Glob.minimatch
              Examples.treeFs "/nowhere" "foo" [] 0).
Defined.

(** ** The preview *)

(** X24. The diff that a call without [dryRun] returns is the diff that
    the call with [dryRun] returns on the same file system; and the error
    that a call with [dryRun] throws is thrown by the call without
    [dryRun], which then leaves the file system as it was. *)
Theorem X24_dry_run_reports_the_same
    (createTwoFilesPatch : string → string → string → string → string → string → string)
    (fs : FileSystem) (filePath : string) (edits : list Edit) :
  (∀ diff fs',
     applyFileEdits createTwoFilesPatch filePath edits false fs = (Ok diff, fs') →
     applyFileEdits createTwoFilesPatch filePath edits true fs = (Ok diff, fs))
  ∧ (∀ e,
       (applyFileEdits createTwoFilesPatch filePath edits true fs).1 = Throw e →
       applyFileEdits createTwoFilesPatch filePath edits false fs = (Throw e, fs)).
Proof.
  destruct (files fs !! filePath) as [raw|] eqn:Hraw.
  - rewrite !(applyFileEdits_readable _ _ _ _ _ _ Hraw).
    destruct (applyEdits _ edits) as [final|e']; split; try done.
    + by intros diff fs' [= <- _].
    + simpl. by intros e [= <-].
  - rewrite !applyFileEdits_unreadable by done. split; [done|].
    simpl. by intros e [= <-].
Qed.

(** X24, on the edit of [return x;] into [return y;]. *)
Lemma X24_preview_witness :
  applyFileEdits Examples.wholeFilePatch "/allowed/f.js" [Examples.returnY] true
    Examples.sourceFs
  = (Ok (renderedDiff Examples.wholeFilePatch Examples.sourceText
           ("function f() {" +:+ LF +:+ "  return y;" +:+ LF +:+ "}") "/allowed/f.js"),
     Examples.sourceFs).
Proof.
  apply (proj1 (X24_dry_run_reports_the_same Examples.wholeFilePatch Examples.sourceFs
                  "/allowed/f.js" [Examples.returnY]) _
           (written Examples.sourceFs "/allowed/f.js"
              ("function f() {" +:+ LF +:+ "  return y;" +:+ LF +:+ "}"))).
  reflexivity.
Defined.
